(** * The agentic control loop of [main.py]

    A shallow embedding of [websocket_endpoint] and [grok_search]: the
    loop that alternates between the reasoning model, the tool provider
    and the quality-control model, together with the receive loop around
    it.

    The three collaborators are outside the program.  Their behaviour is
    an input of the model: every round of the inner loop is run against
    the [answers] the collaborators give in that round, and every call
    made to them is recorded, with its arguments, in a trace of
    [action]s.  A call either returns or raises; an exception is
    represented by its string description, which is all the handlers
    read ([str(e)]).  The inner loop has no bound: it is run on a finite
    script of answers, and when the script ends inside the loop the run
    stops there, about to call the reasoning model again.

    The client is an input as well: a session lists what the client
    sends, each item with the number of seconds after which it arrives.

    [websocket.send_json] encodes the dictionary it is given with
    [json.dumps] and hands the text to the client.  The encoding is part
    of the model: a dictionary that holds an object of the SDK, as the
    history does from line 139 on, is refused with a [TypeError], and
    nothing is sent.  An event that is encoded is recorded in the trace;
    that the transport then delivers it is taken for granted.  Output
    written with [print] to the server console is not modelled. *)

From Stdlib Require Import String Ascii List Bool Arith Lia QArith.
Import ListNotations.
Local Open Scope nat_scope.
Local Open Scope string_scope.

(** ** Values exchanged with the collaborators *)

(** The description of a raised exception. *)
Definition exn := string.

Inductive result (A : Type) : Type :=
| Ok (a : A)
| Raise (e : exn).
Arguments Ok {A} a.
Arguments Raise {A} e.

(** One entry of [message.tool_calls]: [id], [function.name] and
    [function.arguments] (the arguments are JSON text). *)
Record tool_call : Type := {
  tc_id : string;
  tc_name : string;
  tc_arguments : string
}.

(** The dictionaries of [messages] and [chat_history].  A key that a
    dictionary does not have is [None]. *)
Record msg : Type := {
  role : string;
  content : option string;
  tool_calls : option (list tool_call);
  tool_call_id : option string
}.

(** The dictionaries given to [websocket.send_json]. *)
Record event : Type := {
  ev_type : string;
  ev_content : string;
  ev_chat_history : option (list msg)
}.

(** [response.choices[0].message] of the reasoning model, as far as the
    loop reads it. *)
Record chat_message : Type := {
  rsp_content : option string;
  rsp_tool_calls : option (list tool_call)
}.

(** What the collaborators do in one round of the inner loop:
    [openai.chat.completions.create], [aci.handle_function_call] and
    [grok_client.chat.completions.create] (of which [grok_search] reads
    [choices[0].message.content]).  An answer to a call that the round
    does not make is not looked at. *)
Record answers (V : Type) : Type := {
  ans_openai : result chat_message;
  ans_aci : result V;
  ans_grok : result (option string)
}.
Arguments ans_openai {V} _.
Arguments ans_aci {V} _.
Arguments ans_grok {V} _.

(** Everything the program does to the outside, in program order.  The
    constant arguments of the calls (model names, the tool definitions,
    the linked account) are left out. *)
Inductive action (J : Type) : Type :=
| SendJson (e : event)
| OpenaiCreate (messages : list msg)
| HandleFunctionCall (name : string) (arguments : J)
| GrokCreate (prompt_text : string).
Arguments SendJson {J} e.
Arguments OpenaiCreate {J} messages.
Arguments HandleFunctionCall {J} name arguments.
Arguments GrokCreate {J} prompt_text.

(** What [websocket.receive_text()] will do, and after how many
    seconds. *)
Inductive inbound : Type :=
| Arrives (after : Q) (text : string)
| Disconnects (after : Q)
| Fails (after : Q) (e : exn)
| Silent.

(** ** Constants of the source *)

Definition nl : string := String (ascii_of_nat 10) EmptyString.
Definition dquote : string := String (ascii_of_nat 34) EmptyString.

Definition prompt : string :=
  "You are a source finding agent who finds original sources as well as references and links to sources. "
  ++ "You can use the web search tool, and you have access to the web pages content themselves to read the articles and see what they reference. "
  ++ "If asked about finding sources, search for at least 5 sources to ensure you have enough information to answer the user's query. "
  ++ "If an initial search does not find what the user is looking for, try again with a different query and query parameters. "
  ++ "If you find a source, return the source in a list of dictionaries with the following format: "
  ++ "source_name, source_url, source_type, source_description, source_date".

(** The text [grok_search] puts in front of its [query]. *)
Definition grok_instructions : string :=
  "you are a quality control agent for the source finding agent. does this response give a satisfactory and correct answer to the user's query? for example, for the original source of the dire wolves being brought back, the answer should be colossal biosciences who released the press release. if the user is asking for general sources and thats all that is found, respond with `yes` or if the user is just asking a chatty question, respond with respond with `yes` to allow the agent to respond and finish looping. If yes, respond with `yes` ONLY. If no, respond with a new query to search for the correct answer : ".

(** [timeout=600.0] of [asyncio.wait_for]. *)
Definition timeout : Q := 600%Q.

(** [str(e)] of the [TypeError] of ["Feedback from Grok: " + None]. *)
Definition concat_none_error : exn :=
  "can only concatenate str (not " ++ dquote ++ "NoneType" ++ dquote ++ ") to str".

(** ** Dictionaries built by the loop *)

Definition system_turn : msg :=
  {| role := "system"; content := Some prompt;
     tool_calls := None; tool_call_id := None |}.

Definition user_turn (message : string) : msg :=
  {| role := "user"; content := Some message;
     tool_calls := None; tool_call_id := None |}.

Definition assistant_turn (text : string) : msg :=
  {| role := "assistant"; content := Some text;
     tool_calls := None; tool_call_id := None |}.

Definition tool_request_turn (tc : tool_call) : msg :=
  {| role := "assistant"; content := None;
     tool_calls := Some [tc]; tool_call_id := None |}.

Definition tool_result_turn (id : string) (text : string) : msg :=
  {| role := "tool"; content := Some text;
     tool_calls := None; tool_call_id := Some id |}.

Definition progress_event (text : string) : event :=
  {| ev_type := "progress"; ev_content := text; ev_chat_history := None |}.

Definition message_event (text : string) : event :=
  {| ev_type := "message"; ev_content := text; ev_chat_history := None |}.

Definition final_event (text : string) : event :=
  {| ev_type := "final"; ev_content := text; ev_chat_history := None |}.

Definition error_event (text : string) (chat_history : list msg) : event :=
  {| ev_type := "error"; ev_content := text;
     ev_chat_history := Some chat_history |}.

(** ** What [json.dumps] encodes

    The strings of a dictionary are encoded.  The entries of
    [tool_calls] are not strings: line 141 stores the object of the SDK
    as it came in the response, and [json.dumps] refuses an object of a
    class it does not know. *)

Definition serializable (m : msg) : bool :=
  match tool_calls m with
  | Some (_ :: _) => false
  | _ => true
  end.

Definition encodable (e : event) : bool :=
  match ev_chat_history e with
  | Some chat_history => forallb serializable chat_history
  | None => true
  end.

(** [str(e)] of the [TypeError] of [json.dumps] on the object of a tool
    call. *)
Definition not_serializable : exn :=
  "Object of type ChatCompletionMessageToolCall is not JSON serializable".

(** ** Truth values of Python *)

(** [if content:] and [if msg.get('content')]: a missing or [None] value
    and the empty string are false. *)
Definition truthy (o : option string) : bool :=
  match o with
  | Some s => negb (s =? "")
  | None => false
  end.

(** The string held by a value that is true. *)
Definition text_of (o : option string) : string :=
  match o with
  | Some s => s
  | None => ""
  end.

(** [tool_calls[0] if tool_calls else None]: [None] and the empty list
    are false. *)
Definition first_tool_call (m : chat_message) : option tool_call :=
  match rsp_tool_calls m with
  | Some (tc :: _) => Some tc
  | _ => None
  end.

(** [msg.get('content', '')]. *)
Definition get_content (m : msg) : string := text_of (content m).

(** The transcript of lines 167-171: one line [role: content] for every
    dictionary with a true [content], joined by newlines. *)
Definition chat_summary (chat_history : list msg) : string :=
  String.concat nl
    (map (fun m => role m ++ ": " ++ get_content m)
         (filter (fun m => truthy (content m)) chat_history)).

(** ** The variables of the loop and its effects *)

Record state : Type := {
  message : string;
  chat_history : list msg
}.

Inductive flow : Type :=
| Break
| Continue.

(** Where the inner loop is when the answers of the collaborators have
    been used up: left by [break], or about to call the reasoning model
    again. *)
Inductive status : Type :=
| Finished
| Reasoning.

(** How the processing of one inbound message ends when it returns to
    the receive loop: the inner loop was left by [break], the handler
    of line 180 has sent its event, or the loop is still running. *)
Inductive ending : Type :=
| Satisfied
| Errored (e : exn)
| Pending.

(** Where the connection task is at the end of a session: it has left
    the receive loop (lines 188-196), it waits for the next inbound
    message, or it is inside the inner loop.  The receive loop is left
    by the two exceptions of lines 188 and 191, and by any other
    exception that reaches line 195: one raised by the receive, or one
    raised inside the handler of line 180. *)
Inductive closing : Type :=
| TimedOut
| ClientGone
| Crashed (e : exn)
| Listening
| Busy.

(** [asyncio.wait_for(websocket.receive_text(), timeout)]: what the
    receive does if it does it within [limit] seconds, and
    [asyncio.TimeoutError] otherwise. *)
Inductive received : Type :=
| Text (text : string)
| TimeoutError
| WebSocketDisconnect
| OtherError (e : exn).

Definition wait_for (i : inbound) (limit : Q) : received :=
  match i with
  | Arrives after text => if Qle_bool after limit then Text text else TimeoutError
  | Disconnects after =>
      if Qle_bool after limit then WebSocketDisconnect else TimeoutError
  | Fails after e => if Qle_bool after limit then OtherError e else TimeoutError
  | Silent => TimeoutError
  end.

Section Loop.

(** [json.loads], [json.dumps] and [json.dumps(..., indent=2)] on the
    values of the tool provider: [J] is what [json.loads] produces from
    the arguments of a tool call, [V] what [aci.handle_function_call]
    returns.  [json.loads] returns or raises; [json.dumps] is taken to
    return on every value of the provider. *)
Variables J V : Type.
Variable json_loads : string -> result J.
Variable json_dumps : V -> string.
Variable json_dumps_indent : V -> string.

(** A computation reads and updates the variables, acts on the outside
    and returns or raises.  Updates and actions made before a raise
    stay. *)
Definition M (A : Type) : Type := state -> result A * state * list (action J).

Definition ret {A} (a : A) : M A := fun s => (Ok a, s, []).

Definition raise {A} (e : exn) : M A := fun s => (Raise e, s, []).

Definition bind {A B} (c : M A) (k : A -> M B) : M B :=
  fun s =>
    match c s with
    | (Ok a, s1, t1) =>
        match k a s1 with
        | (r, s2, t2) => (r, s2, (t1 ++ t2)%list)
        end
    | (Raise e, s1, t1) => (Raise e, s1, t1)
    end.

Notation "x <- c ;; k" := (bind c (fun x => k))
  (at level 61, c at next level, right associativity).
Notation "c ;; k" := (bind c (fun _ => k))
  (at level 61, right associativity).

Definition act (a : action J) : M unit := fun s => (Ok tt, s, [a]).

Definition called {A} (a : action J) (r : result A) : M A :=
  fun s => (r, s, [a]).

Definition lift {A} (r : result A) : M A := fun s => (r, s, []).

Definition get_message : M string := fun s => (Ok (message s), s, []).

Definition get_chat_history : M (list msg) :=
  fun s => (Ok (chat_history s), s, []).

Definition set_message (m : string) : M unit :=
  fun s => (Ok tt, {| message := m; chat_history := chat_history s |}, []).

(** [chat_history.append(m)]. *)
Definition append (m : msg) : M unit :=
  fun s =>
    (Ok tt, {| message := message s; chat_history := chat_history s ++ [m] |}, []).

(** [websocket.send_json(e)]: the text is [json.dumps(e)]; when [e]
    cannot be encoded the call raises and nothing is sent. *)
Definition send_json (e : event) : M unit :=
  if encodable e then act (SendJson e) else raise not_serializable.

(** [messages=[...] + chat_history] of lines 104-114. *)
Definition context (message : string) (chat_history : list msg) : list msg :=
  ([system_turn; user_turn message] ++ chat_history)%list.

(** Lines 58-70. *)
Definition grok_search (a : answers V) (query : string) : M string :=
  completion <- called (GrokCreate (grok_instructions ++ query)) (ans_grok a) ;;
  match completion with
  | Some text =>
      send_json (progress_event ("Feedback from Grok: " ++ text)) ;;
      ret text
  | None => raise concat_none_error
  end.

(** Lines 102-130: the call of the reasoning model and what is done
    with its [content]; the value is [tool_call]. *)
Definition reasoning (a : answers V) : M (option tool_call) :=
  message <- get_message ;;
  chat_history <- get_chat_history ;;
  response <- called (OpenaiCreate (context message chat_history)) (ans_openai a) ;;
  let content := rsp_content response in
  let tool_call := first_tool_call response in
  (if truthy content then
     send_json (message_event (text_of content)) ;;
     append (assistant_turn (text_of content))
   else ret tt) ;;
  ret tool_call.

(** Lines 134-159: the branch [if tool_call:]. *)
Definition tool_dispatch (a : answers V) (tool_call : tool_call) : M flow :=
  send_json (progress_event
    ("Function Call: " ++ tc_name tool_call ++ nl
     ++ "Arguments: " ++ tc_arguments tool_call)) ;;
  append (tool_request_turn tool_call) ;;
  arguments <- lift (json_loads (tc_arguments tool_call)) ;;
  function_result <-
    called (HandleFunctionCall (tc_name tool_call) arguments) (ans_aci a) ;;
  let function_result_str := json_dumps_indent function_result in
  send_json (progress_event ("Function Result: " ++ function_result_str)) ;;
  append (tool_result_turn (tc_id tool_call) (json_dumps function_result)) ;;
  ret Continue.

(** Lines 162-177: the branch [else:]. *)
Definition gating (a : answers V) : M flow :=
  send_json (final_event "Task Completed") ;;
  chat_history <- get_chat_history ;;
  response <- grok_search a (chat_summary chat_history) ;;
  if response =? "yes" then ret Break
  else set_message response ;; ret Continue.

(** Lines 102-177, the body of the inner [while True]. *)
Definition iteration (a : answers V) : M flow :=
  tool_call <- reasoning a ;;
  match tool_call with
  | Some tool_call => tool_dispatch a tool_call
  | None => gating a
  end.

(** Lines 100-177: the inner loop, one round per element of [script]. *)
Fixpoint conversation (script : list (answers V)) : M status :=
  match script with
  | [] => ret Reasoning
  | a :: script' =>
      f <- iteration a ;;
      match f with
      | Break => ret Finished
      | Continue => conversation script'
      end
  end.

(** [try: c  except Exception as e: handler e]. *)
Definition try_except {A} (c : M A) (handler : exn -> M A) : M A :=
  fun s =>
    match c s with
    | (Ok a, s1, t1) => (Ok a, s1, t1)
    | (Raise e, s1, t1) =>
        match handler e s1 with
        | (r, s2, t2) => (r, s2, (t1 ++ t2)%list)
        end
    end.

(** The variables when the inner loop is entered for the inbound
    [text]: [message] is assigned at line 86 and [chat_history] at
    line 97. *)
Definition fresh (text : string) : state :=
  {| message := text; chat_history := [] |}.

(** Lines 86-186: what is done with the inbound [text].  The handler
    of line 180 is not itself inside a [try] of the inner loop: when
    its [send_json] raises, the exception leaves [exchange]. *)
Definition exchange (text : string) (script : list (answers V))
  : result ending * state * list (action J) :=
  (send_json (progress_event "Processing your request...") ;;
   try_except
     (r <- conversation script ;;
      ret (match r with Finished => Satisfied | Reasoning => Pending end))
     (fun e =>
        chat_history <- get_chat_history ;;
        send_json (error_event e chat_history) ;;
        ret (Errored e)))
    (fresh text).

(** Lines 82-196.  A session is what the client does, message by
    message, each with the answers the collaborators give while it is
    processed. *)
Fixpoint websocket_endpoint (session : list (inbound * list (answers V)))
  : closing * list (action J) :=
  match session with
  | [] => (Listening, [])
  | (i, script) :: session' =>
      match wait_for i timeout with
      | Text text =>
          match exchange text script with
          | (Ok Pending, _, t) => (Busy, t)
          | (Ok _, _, t) =>
              let (c, t') := websocket_endpoint session' in (c, (t ++ t')%list)
          | (Raise e, _, t) => (Crashed e, t)
          end
      | TimeoutError => (TimedOut, [])
      | WebSocketDisconnect => (ClientGone, [])
      | OtherError e => (Crashed e, [])
      end
  end.

(** The rounds of the inner loop that are run on [script], each with
    the variables at its start: the next round is run when the round
    before it returned [Continue]. *)
Fixpoint rounds (script : list (answers V)) (s : state)
  : list (answers V * state) :=
  match script with
  | [] => []
  | a :: script' =>
      (a, s) ::
      match iteration a s with
      | (Ok Continue, s1, _) => rounds script' s1
      | _ => []
      end
  end.

End Loop.

Arguments M J A : clear implicits.
Arguments ret {J A} a.
Arguments raise {J A} e.
Arguments bind {J A B} c k.
Arguments try_except {J A} c handler.
Arguments grok_search {J V} a query.
Arguments reasoning {J V} a.
Arguments tool_dispatch {J V} json_loads json_dumps json_dumps_indent a tool_call.
Arguments gating {J V} a.
Arguments iteration {J V} json_loads json_dumps json_dumps_indent a.
Arguments conversation {J V} json_loads json_dumps json_dumps_indent script.
Arguments exchange {J V} json_loads json_dumps json_dumps_indent text script.
Arguments websocket_endpoint {J V} json_loads json_dumps json_dumps_indent session.
Arguments rounds {J V} json_loads json_dumps json_dumps_indent script s.

(** The three components of a run. *)
Definition outcome {J A} (x : result A * state * list (action J)) : result A :=
  fst (fst x).
Definition state_of {J A} (x : result A * state * list (action J)) : state :=
  snd (fst x).
Definition trace_of {J A} (x : result A * state * list (action J))
  : list (action J) := snd x.

(** A run after the actions [t]. *)
Definition prefix {J A} (t : list (action J))
  (x : result A * state * list (action J)) : result A * state * list (action J) :=
  (outcome x, state_of x, (t ++ trace_of x)%list).

(** The rest of a session after the actions [t]. *)
Definition resume {J} (t : list (action J)) (x : closing * list (action J))
  : closing * list (action J) :=
  (fst x, (t ++ snd x)%list).

(** ** Reading a trace *)

Section Observations.

Context {J : Type}.

(** The events handed to the client. *)
Fixpoint events (t : list (action J)) : list event :=
  match t with
  | [] => []
  | SendJson e :: t' => e :: events t'
  | _ :: t' => events t'
  end.

(** The [messages] of the calls of the reasoning model. *)
Fixpoint reasoning_calls (t : list (action J)) : list (list msg) :=
  match t with
  | [] => []
  | OpenaiCreate messages :: t' => messages :: reasoning_calls t'
  | _ :: t' => reasoning_calls t'
  end.

(** The prompts of the calls of the quality-control model. *)
Fixpoint gate_calls (t : list (action J)) : list string :=
  match t with
  | [] => []
  | GrokCreate p :: t' => p :: gate_calls t'
  | _ :: t' => gate_calls t'
  end.

(** The calls of the tool provider. *)
Fixpoint tool_calls_made (t : list (action J)) : list (string * J) :=
  match t with
  | [] => []
  | HandleFunctionCall name arguments :: t' =>
      (name, arguments) :: tool_calls_made t'
  | _ :: t' => tool_calls_made t'
  end.

(** What lines 162-172 do before the verdict is read. *)
Definition gate_opening (s : state) : list (action J) :=
  [SendJson (final_event "Task Completed");
   GrokCreate (grok_instructions ++ chat_summary (chat_history s))].

End Observations.

Definition is_error (e : event) : bool := ev_type e =? "error".

Definition error_events (es : list event) : list event := filter is_error es.

(** ** Kinds of rounds *)

(** The reasoning model returns and asks for no tool. *)
Definition direct {V} (a : answers V) : bool :=
  match ans_openai a with
  | Ok r =>
      match first_tool_call r with
      | None => true
      | Some _ => false
      end
  | Raise _ => false
  end.

(** The reasoning model returns and asks for a tool. *)
Definition tool_requesting {V} (a : answers V) : bool :=
  match ans_openai a with
  | Ok r =>
      match first_tool_call r with
      | None => false
      | Some _ => true
      end
  | Raise _ => false
  end.

(** ** Shapes of the history *)

(** What lines 124-130 append for a response. *)
Definition said (r : chat_message) : list msg :=
  if truthy (rsp_content r) then [assistant_turn (text_of (rsp_content r))]
  else [].

(** What lines 124-128 send for a response. *)
Definition spoken (r : chat_message) : list event :=
  if truthy (rsp_content r) then [message_event (text_of (rsp_content r))]
  else [].

Definition extend (s : state) (turns : list msg) : state :=
  {| message := message s; chat_history := (chat_history s ++ turns)%list |}.

(** A turn that requests a tool has [tool_calls]; a turn that holds the
    result of a tool has a [tool_call_id]. *)
Definition is_request (m : msg) : bool :=
  match tool_calls m with
  | Some _ => true
  | None => false
  end.

Definition is_tool_result (m : msg) : bool :=
  match tool_call_id m with
  | Some _ => true
  | None => false
  end.

(** [m] is a result turn for the call [tc]. *)
Definition is_result_for (tc : tool_call) (m : msg) : bool :=
  negb (is_request m)
  && match tool_call_id m with
     | Some id => id =? tc_id tc
     | None => false
     end.

(** The history is made of turns that neither request a tool nor hold
    a result, and of pairs of a request of one call directly followed
    by a result for that call. *)
Fixpoint paired (h : list msg) : bool :=
  match h with
  | [] => true
  | m :: h' =>
      match tool_calls m, tool_call_id m with
      | None, None => paired h'
      | Some [tc], None =>
          match h' with
          | m' :: h'' => is_result_for tc m' && paired h''
          | [] => false
          end
      | _, _ => false
      end
  end.

(** The same, turn by turn: every request turn holds one call, the turn
    after it is a result for that call, and the turn after that one is
    not a result; every result turn stands directly after a request. *)
Definition answered (h : list msg) : Prop :=
  (forall i m,
     nth_error h i = Some m -> is_request m = true ->
     exists tc m',
       tool_calls m = Some [tc]
       /\ nth_error h (S i) = Some m'
       /\ is_result_for tc m' = true
       /\ (forall m'', nth_error h (S (S i)) = Some m'' ->
                       is_tool_result m'' = false))
  /\ (forall i m,
        nth_error h i = Some m -> is_tool_result m = true ->
        exists j m', i = S j /\ nth_error h j = Some m' /\ is_request m' = true).

(** The number of request turns and of result turns. *)
Definition requests (h : list msg) : nat := length (filter is_request h).

Definition tool_results (h : list msg) : nat :=
  length (filter is_tool_result h).

(** No turn of the history is a [user] or a [system] turn. *)
Definition from_loop (m : msg) : Prop := role m = "assistant" \/ role m = "tool".

(** The texts the quality-control model returns in a script. *)
Definition verdicts {V} (script : list (answers V)) : list string :=
  flat_map (fun a => match ans_grok a with
                     | Ok (Some t) => [t]
                     | _ => []
                     end) script.

(** The transcript in the words of the specification: going through the
    turns in order, a turn with a present, non-empty content gives the
    line [role: content], any other turn gives no line. *)
Fixpoint transcript_lines (h : list msg) : list string :=
  match h with
  | [] => []
  | m :: h' =>
      match content m with
      | Some c =>
          if c =? "" then transcript_lines h'
          else (role m ++ ": " ++ c) :: transcript_lines h'
      | None => transcript_lines h'
      end
  end.

(** The texts of lines 137 and 157. *)
Definition call_notice (tc : tool_call) : string :=
  "Function Call: " ++ tc_name tc ++ nl ++ "Arguments: " ++ tc_arguments tc.

(** ** Reading a session *)

(** When the receive of an inbound item completes, if ever. *)
Definition completes (i : inbound) : option Q :=
  match i with
  | Arrives after _ => Some after
  | Disconnects after => Some after
  | Fails after _ => Some after
  | Silent => None
  end.

(** ** Test doubles

    Stand-ins for [json] and for the collaborators, to run the loop on
    concrete sessions.  Decoded arguments are lists of keys with their
    texts; the values of the provider are execution results with a flag
    and a text. *)

Definition quoted (s : string) : string := dquote ++ s ++ dquote.

Record execution : Type := {
  success : bool;
  data : string
}.

(** The JSON object with the key [query] and the text [dire wolf
    revival]. *)
Definition news_arguments : string :=
  "{" ++ quoted "query" ++ ": " ++ quoted "dire wolf revival" ++ "}".

(** [json.loads] on the texts of the scenarios. *)
Definition demo_loads (text : string) : result (list (string * string)) :=
  if text =? news_arguments then Ok [("query", "dire wolf revival")]
  else if text =? "{}" then Ok []
  else if text =? "{" then
    Raise "Expecting property name enclosed in double quotes: line 1 column 2 (char 1)"
  else Raise "Expecting value: line 1 column 1 (char 0)".

(** [json.dumps] of an execution result whose text needs no escape. *)
Definition demo_dumps (v : execution) : string :=
  "{" ++ quoted "success" ++ ": " ++ (if success v then "true" else "false")
  ++ ", " ++ quoted "data" ++ ": " ++ quoted (data v) ++ "}".

(** The same with [indent=2]. *)
Definition demo_dumps_indent (v : execution) : string :=
  "{" ++ nl
  ++ "  " ++ quoted "success" ++ ": " ++ (if success v then "true" else "false")
  ++ "," ++ nl
  ++ "  " ++ quoted "data" ++ ": " ++ quoted (data v) ++ nl
  ++ "}".

Definition news_search : tool_call :=
  {| tc_id := "call_1"; tc_name := "BRAVE_SEARCH__NEWS_SEARCH";
     tc_arguments := news_arguments |}.

Definition broken_search : tool_call :=
  {| tc_id := "call_2"; tc_name := "BRAVE_SEARCH__WEB_SEARCH";
     tc_arguments := "{" |}.

(** A round in which the reasoning model asks for [tc], with or
    without text, and the provider answers [provider]. *)
Definition tool_round (text : option string) (tc : tool_call)
  (provider : result execution) : answers execution :=
  {| ans_openai := Ok {| rsp_content := text; rsp_tool_calls := Some [tc] |};
     ans_aci := provider;
     ans_grok := Raise "not called" |}.

(** A round in which the reasoning model answers [text] and asks for no
    tool, and the quality-control model answers [verdict]. *)
Definition answer_round (text : string) (verdict : result (option string))
  : answers execution :=
  {| ans_openai := Ok {| rsp_content := Some text; rsp_tool_calls := None |};
     ans_aci := Raise "not called";
     ans_grok := verdict |}.

(** A round in which the reasoning model fails. *)
Definition outage_round (e : exn) : answers execution :=
  {| ans_openai := Raise e;
     ans_aci := Raise "not called";
     ans_grok := Raise "not called" |}.

Definition three_articles : execution :=
  {| success := true; data := "three articles" |}.

(** A failure that the provider reports in the value it returns. *)
Definition nothing_found : execution :=
  {| success := false; data := "no results" |}.

Definition dire_wolf : string :=
  "What is the origin of the dire wolf revival story?".

Definition press_release : string :=
  "The original source is the press release of Colossal Biosciences.".

Definition demo_iteration := iteration demo_loads demo_dumps demo_dumps_indent.
Definition demo_conversation :=
  conversation demo_loads demo_dumps demo_dumps_indent.
Definition demo_exchange := exchange demo_loads demo_dumps demo_dumps_indent.
Definition demo_endpoint :=
  websocket_endpoint demo_loads demo_dumps demo_dumps_indent.

(** Scenario A of the specification: a news search, three articles, an
    answer, and the quality-control model is satisfied. *)
Definition search_round : answers execution :=
  tool_round None news_search (Ok three_articles).

Definition satisfied_round : answers execution :=
  answer_round press_release (Ok (Some "yes")).

Definition scenario_a : list (answers execution) :=
  [ search_round; satisfied_round ].

(** The variables after the first round of scenario A. *)
Definition searched : state :=
  {| message := dire_wolf;
     chat_history := [ tool_request_turn news_search;
                       tool_result_turn "call_1" (demo_dumps three_articles) ] |}.

(** Scenario B: the quality-control model first asks for another
    query. *)
Definition refine : string :=
  "search for the original press release specifically".

Definition retry_round : answers execution :=
  answer_round "Several outlets covered the story." (Ok (Some refine)).

Definition scenario_b : list (answers execution) :=
  [ retry_round; search_round; satisfied_round ].

(** Scenario C: the provider raises on a rate limit; the script would
    have more rounds. *)
Definition rate_limited_round : answers execution :=
  tool_round (Some "Let me search.") news_search (Raise "429 Too Many Requests").

Definition scenario_c : list (answers execution) :=
  [ rate_limited_round; satisfied_round ].

(** Scenario D: a message, and then nothing for 601 seconds. *)
Definition scenario_d : list (inbound * list (answers execution)) :=
  [ (Arrives 1 dire_wolf, scenario_a);
    (Arrives 601 "Anyone there?", scenario_a) ].

(** The provider returns a value that reports a failure. *)
Definition fruitless_round : answers execution :=
  tool_round None news_search (Ok nothing_found).

(** The provider is down. *)
Definition unavailable_round : answers execution :=
  tool_round None news_search (Raise "503 Service Unavailable").

(** The reasoning model sends arguments that are not JSON. *)
Definition broken_round : answers execution :=
  tool_round None broken_search (Ok three_articles).

Definition scenario_broken_arguments : list (answers execution) :=
  [ broken_round; satisfied_round ].

(** The quality-control model answers [Yes], not [yes]. *)
Definition capitalised_round : answers execution :=
  answer_round press_release (Ok (Some "Yes")).

(** The reasoning model says something and asks for a tool with
    arguments that are not JSON. *)
Definition chatty_broken_round : answers execution :=
  tool_round (Some "Let me search.") broken_search (Ok three_articles).

(** The quality-control model answers with the question of the user. *)
Definition echo_round : answers execution :=
  answer_round "Several outlets covered the story." (Ok (Some dire_wolf)).

Definition scenario_echo : list (answers execution) :=
  [ echo_round; satisfied_round ].

(** A second message of the client. *)
Definition follow_up : string := "And who reported it first?".

(** * Properties *)

Section Properties.

Context {J V : Type}.
Variable json_loads : string -> result J.
Variable json_dumps : V -> string.
Variable json_dumps_indent : V -> string.

Local Abbreviation reasoning := (@reasoning J V).
Local Abbreviation gating := (@gating J V).
Local Abbreviation grok_search := (@grok_search J V).
Local Abbreviation tool_dispatch :=
  (tool_dispatch json_loads json_dumps json_dumps_indent).
Local Abbreviation iteration := (iteration json_loads json_dumps json_dumps_indent).
Local Abbreviation conversation :=
  (conversation json_loads json_dumps json_dumps_indent).
Local Abbreviation exchange := (exchange json_loads json_dumps json_dumps_indent).
Local Abbreviation websocket_endpoint :=
  (websocket_endpoint json_loads json_dumps json_dumps_indent).
Local Abbreviation rounds := (rounds json_loads json_dumps json_dumps_indent).

(** ** The phases of a round, case by case *)

Lemma extend_nil (s : state) : extend s [] = s.
Proof. destruct s; unfold extend; simpl. now rewrite app_nil_r. Qed.

Lemma extend_extend (s : state) (k l : list msg) :
  extend (extend s k) l = extend s (k ++ l).
Proof. unfold extend; simpl. now rewrite app_assoc. Qed.

Lemma reasoning_raises (a : answers V) (s : state) (e : exn) :
  ans_openai a = Raise e ->
  reasoning a s
  = (Raise e, s, [OpenaiCreate (context (message s) (chat_history s))]).
Proof.
  intros H. unfold reasoning, bind, called, get_message, get_chat_history.
  rewrite H. reflexivity.
Qed.

Lemma reasoning_returns (a : answers V) (s : state) (r : chat_message) :
  ans_openai a = Ok r ->
  reasoning a s
  = (Ok (first_tool_call r), extend s (said r),
     OpenaiCreate (context (message s) (chat_history s))
       :: map SendJson (spoken r)).
Proof.
  intros H. unfold reasoning, bind, called, get_message, get_chat_history.
  rewrite H. unfold said, spoken.
  destruct (truthy (rsp_content r)).
  - reflexivity.
  - rewrite extend_nil. reflexivity.
Qed.

Lemma tool_dispatch_returns (a : answers V) (s : state) (tc : tool_call)
    (arguments : J) (v : V) :
  json_loads (tc_arguments tc) = Ok arguments ->
  ans_aci a = Ok v ->
  tool_dispatch a tc s
  = (Ok Continue,
     extend s [tool_request_turn tc;
               tool_result_turn (tc_id tc) (json_dumps v)],
     [SendJson (progress_event (call_notice tc));
      HandleFunctionCall (tc_name tc) arguments;
      SendJson (progress_event ("Function Result: " ++ json_dumps_indent v))]).
Proof.
  intros Hl Ha.
  unfold tool_dispatch, bind, called, lift, send_json, act, append.
  rewrite Hl, Ha. unfold extend.
  cbn [encodable progress_event ev_chat_history chat_history message].
  rewrite <- app_assoc. reflexivity.
Qed.

Lemma tool_dispatch_bad_arguments (a : answers V) (s : state) (tc : tool_call)
    (e : exn) :
  json_loads (tc_arguments tc) = Raise e ->
  tool_dispatch a tc s
  = (Raise e, extend s [tool_request_turn tc],
     [SendJson (progress_event (call_notice tc))]).
Proof.
  intros Hl.
  unfold tool_dispatch, bind, called, lift, send_json, act, append.
  rewrite Hl. reflexivity.
Qed.

Lemma tool_dispatch_raises (a : answers V) (s : state) (tc : tool_call)
    (arguments : J) (e : exn) :
  json_loads (tc_arguments tc) = Ok arguments ->
  ans_aci a = Raise e ->
  tool_dispatch a tc s
  = (Raise e, extend s [tool_request_turn tc],
     [SendJson (progress_event (call_notice tc));
      HandleFunctionCall (tc_name tc) arguments]).
Proof.
  intros Hl Ha.
  unfold tool_dispatch, bind, called, lift, send_json, act, append.
  rewrite Hl, Ha. reflexivity.
Qed.

Lemma gating_raises (a : answers V) (s : state) (e : exn) :
  ans_grok a = Raise e ->
  gating a s = (Raise e, s, gate_opening s).
Proof.
  intros Hg.
  unfold gating, grok_search, bind, called, send_json, act,
    get_chat_history.
  rewrite Hg. reflexivity.
Qed.

Lemma gating_no_text (a : answers V) (s : state) :
  ans_grok a = Ok None ->
  gating a s = (Raise concat_none_error, s, gate_opening s).
Proof.
  intros Hg.
  unfold gating, grok_search, bind, called, send_json, act,
    get_chat_history.
  rewrite Hg. reflexivity.
Qed.

Lemma gating_text (a : answers V) (s : state) (t : string) :
  ans_grok a = Ok (Some t) ->
  gating a s
  = (if t =? "yes" then Ok Break else Ok Continue,
     if t =? "yes" then s
     else {| message := t; chat_history := chat_history s |},
     (gate_opening s
       ++ [SendJson (progress_event ("Feedback from Grok: " ++ t))])%list).
Proof.
  intros Hg.
  unfold gating, grok_search, bind, called, send_json, act,
    get_chat_history, ret.
  rewrite Hg.
  cbn [encodable final_event progress_event ev_chat_history]. cbv beta iota.
  destruct (t =? "yes"); reflexivity.
Qed.

(** ** Rounds and loops, case by case *)

Lemma bind_run {A B} (c : M J A) (k : A -> M J B) (s : state) :
  bind c k s
  = match c s with
    | (Ok a, s1, t1) => prefix t1 (k a s1)
    | (Raise e, s1, t1) => (Raise e, s1, t1)
    end.
Proof.
  unfold bind, prefix, outcome, state_of, trace_of.
  destruct (c s) as [[[a | e] s1] t1]; [|reflexivity].
  destruct (k a s1) as [[r s2] t2]. reflexivity.
Qed.

Lemma prefix_prefix {A} (t u : list (action J))
    (x : result A * state * list (action J)) :
  prefix t (prefix u x) = prefix (t ++ u) x.
Proof. unfold prefix, outcome, state_of, trace_of; simpl. now rewrite app_assoc. Qed.

Lemma iteration_reasoning_raises (a : answers V) (s : state) (e : exn) :
  ans_openai a = Raise e ->
  iteration a s
  = (Raise e, s, [OpenaiCreate (context (message s) (chat_history s))]).
Proof.
  intros H. unfold iteration. rewrite bind_run.
  now rewrite (reasoning_raises a s e H).
Qed.

Lemma iteration_tool (a : answers V) (s : state) (r : chat_message)
    (tc : tool_call) :
  ans_openai a = Ok r ->
  first_tool_call r = Some tc ->
  iteration a s
  = prefix (OpenaiCreate (context (message s) (chat_history s))
              :: map SendJson (spoken r))
           (tool_dispatch a tc (extend s (said r))).
Proof.
  intros H Htc. unfold iteration. rewrite bind_run.
  rewrite (reasoning_returns a s r H), Htc. reflexivity.
Qed.

Lemma iteration_gate (a : answers V) (s : state) (r : chat_message) :
  ans_openai a = Ok r ->
  first_tool_call r = None ->
  iteration a s
  = prefix (OpenaiCreate (context (message s) (chat_history s))
              :: map SendJson (spoken r))
           (gating a (extend s (said r))).
Proof.
  intros H Htc. unfold iteration. rewrite bind_run.
  rewrite (reasoning_returns a s r H), Htc. reflexivity.
Qed.

Lemma conversation_nil (s : state) : conversation [] s = (Ok Reasoning, s, []).
Proof. reflexivity. Qed.

Lemma conversation_cons (a : answers V) (script : list (answers V)) (s : state) :
  conversation (a :: script) s
  = match iteration a s with
    | (Ok Break, s1, t1) => (Ok Finished, s1, t1)
    | (Ok Continue, s1, t1) => prefix t1 (conversation script s1)
    | (Raise e, s1, t1) => (Raise e, s1, t1)
    end.
Proof.
  cbn [conversation]. rewrite bind_run.
  destruct (iteration a s) as [[[[|] | e] s1] t1]; try reflexivity.
  unfold prefix, ret, outcome, state_of, trace_of; simpl.
  now rewrite app_nil_r.
Qed.

Lemma exchange_run (text : string) (script : list (answers V)) :
  exchange text script
  = prefix [SendJson (progress_event "Processing your request...")]
      match conversation script (fresh text) with
      | (Ok Finished, s1, t1) => (Ok Satisfied, s1, t1)
      | (Ok Reasoning, s1, t1) => (Ok Pending, s1, t1)
      | (Raise e, s1, t1) =>
          if forallb serializable (chat_history s1) then
            (Ok (Errored e), s1,
             t1 ++ [SendJson (error_event e (chat_history s1))])%list
          else (Raise not_serializable, s1, t1)
      end.
Proof.
  unfold exchange. rewrite bind_run.
  unfold send_json at 1, act, try_except.
  cbn [encodable progress_event ev_chat_history]. cbv beta iota.
  rewrite bind_run.
  destruct (conversation script (fresh text)) as [[[[|] | e] s1] t1];
    unfold prefix, ret, outcome, state_of, trace_of; cbn [fst snd];
    rewrite ?app_nil_r; try reflexivity.
  unfold bind, get_chat_history, send_json, act, raise.
  cbn [encodable error_event ev_chat_history].
  destruct (forallb serializable (chat_history s1)); cbn [app];
    rewrite ?app_nil_r; reflexivity.
Qed.

Lemma exchange_outcome (text : string) (script : list (answers V)) :
  outcome (exchange text script)
  = match conversation script (fresh text) with
    | (Ok Finished, _, _) => Ok Satisfied
    | (Ok Reasoning, _, _) => Ok Pending
    | (Raise e, s1, _) =>
        if forallb serializable (chat_history s1) then Ok (Errored e)
        else Raise not_serializable
    end.
Proof.
  rewrite exchange_run.
  destruct (conversation script (fresh text)) as [[[[|] | e] s1] t1];
    try reflexivity.
  now destruct (forallb serializable (chat_history s1)).
Qed.

Lemma exchange_finished (text : string) (script : list (answers V)) :
  outcome (conversation script (fresh text)) = Ok Finished ->
  outcome (exchange text script) = Ok Satisfied.
Proof.
  rewrite exchange_outcome.
  destruct (conversation script (fresh text)) as [[[[|] | e] s1] t1];
    unfold outcome; cbn [fst]; congruence.
Qed.

Lemma conversation_app (before script : list (answers V)) (s s1 : state)
    (t1 : list (action J)) :
  conversation before s = (Ok Reasoning, s1, t1) ->
  conversation (before ++ script) s = prefix t1 (conversation script s1).
Proof.
  revert s t1. induction before as [|a before IH]; intros s t1.
  - rewrite conversation_nil. intros H. injection H as <- <-.
    unfold prefix, outcome, state_of, trace_of; cbn [app].
    now destruct (conversation script s) as [[r s2] t2].
  - cbn [app]. rewrite !conversation_cons.
    destruct (iteration a s) as [[[[|] | e] s2] t2]; try discriminate.
    destruct (conversation before s2) as [[r s3] t3] eqn:Hb.
    unfold prefix at 1, outcome, state_of, trace_of; cbn [fst snd].
    intros H. injection H as -> -> <-.
    rewrite (IH s2 t3 Hb). now rewrite prefix_prefix.
Qed.

(** ** Traces, piece by piece *)

Lemma events_app (t u : list (action J)) :
  events (t ++ u) = (events t ++ events u)%list.
Proof.
  induction t as [|[e | m | n x | p] t IH]; simpl; auto. now rewrite IH.
Qed.

Lemma reasoning_calls_app (t u : list (action J)) :
  reasoning_calls (t ++ u) = (reasoning_calls t ++ reasoning_calls u)%list.
Proof.
  induction t as [|[e | m | n x | p] t IH]; simpl; auto. now rewrite IH.
Qed.

Lemma gate_calls_app (t u : list (action J)) :
  gate_calls (t ++ u) = (gate_calls t ++ gate_calls u)%list.
Proof.
  induction t as [|[e | m | n x | p] t IH]; simpl; auto. now rewrite IH.
Qed.

Lemma tool_calls_made_app (t u : list (action J)) :
  tool_calls_made (t ++ u) = (tool_calls_made t ++ tool_calls_made u)%list.
Proof.
  induction t as [|[e | m | n x | p] t IH]; simpl; auto. now rewrite IH.
Qed.

Lemma events_sent (es : list event) : events (J := J) (map SendJson es) = es.
Proof. induction es; simpl; congruence. Qed.

Lemma reasoning_calls_sent (es : list event) :
  reasoning_calls (J := J) (map SendJson es) = [].
Proof. induction es; simpl; congruence. Qed.

Lemma gate_calls_sent (es : list event) :
  gate_calls (J := J) (map SendJson es) = [].
Proof. induction es; simpl; congruence. Qed.

Lemma tool_calls_made_sent (es : list event) :
  tool_calls_made (J := J) (map SendJson es) = [].
Proof. induction es; simpl; congruence. Qed.

(** ** The receive loop, case by case *)

Lemma endpoint_text (d : Q) (text : string) (script : list (answers V))
    (session : list (inbound * list (answers V))) :
  Qle_bool d timeout = true ->
  websocket_endpoint ((Arrives d text, script) :: session)
  = match outcome (exchange text script) with
    | Ok Pending => (Busy, trace_of (exchange text script))
    | Ok _ => resume (trace_of (exchange text script))
                     (websocket_endpoint session)
    | Raise e => (Crashed e, trace_of (exchange text script))
    end.
Proof.
  intros Hd. cbn [websocket_endpoint wait_for]. rewrite Hd.
  destruct (exchange text script) as [[[[| e |] | e] s1] t1];
    unfold resume, outcome, state_of, trace_of; cbn [fst snd];
    try reflexivity;
    destruct (websocket_endpoint session) as [c t']; reflexivity.
Qed.

Ltac round_cases a s :=
  let r := fresh "r" in
  let e := fresh "e" in
  let tc := fresh "tc" in
  let args := fresh "args" in
  let v := fresh "v" in
  let t := fresh "t" in
  let Hr := fresh "Hr" in
  let Htc := fresh "Htc" in
  let Hl := fresh "Hl" in
  let Ha := fresh "Ha" in
  let Hg := fresh "Hg" in
  destruct (ans_openai a) as [r | e] eqn:Hr;
  [ destruct (first_tool_call r) as [tc |] eqn:Htc;
    [ rewrite (iteration_tool a s r tc Hr Htc);
      destruct (json_loads (tc_arguments tc)) as [args | e] eqn:Hl;
      [ destruct (ans_aci a) as [v | e] eqn:Ha;
        [ rewrite (tool_dispatch_returns a _ tc args v Hl Ha)
        | rewrite (tool_dispatch_raises a _ tc args e Hl Ha) ]
      | rewrite (tool_dispatch_bad_arguments a _ tc e Hl) ]
    | rewrite (iteration_gate a s r Hr Htc);
      destruct (ans_grok a) as [[t |] | e] eqn:Hg;
      [ rewrite (gating_text a _ t Hg)
      | rewrite (gating_no_text a _ Hg)
      | rewrite (gating_raises a _ e Hg) ] ]
  | rewrite (iteration_reasoning_raises a s e Hr) ].

(** ** The verdict of the quality-control model *)

(** C3.  In a round in which the reasoning model asks for no tool, the
    loop is left by [break] if and only if the quality-control model
    returns the text [yes].  When it returns a text [t], that is the
    case if and only if [t] is the string [yes], compared character by
    character; if it is, the inner loop is finished whatever the
    collaborators would answer next; if it is not, the loop goes on
    with the next round of the reasoning model with [t] itself as the
    message.  A session whose inner loop is finished goes on with the
    next inbound message. *)
Theorem gate_satisfied_iff_exactly_yes (a : answers V)
    (script : list (answers V)) (s : state) (r : chat_message) :
  ans_openai a = Ok r ->
  first_tool_call r = None ->
  (outcome (iteration a s) = Ok Break <-> ans_grok a = Ok (Some "yes"))
  /\ (forall t,
        ans_grok a = Ok (Some t) ->
        (outcome (iteration a s) = Ok Break <-> t = "yes")
        /\ (t = "yes" ->
            outcome (conversation (a :: script) s) = Ok Finished
            /\ trace_of (conversation (a :: script) s)
               = trace_of (iteration a s))
        /\ (t <> "yes" ->
            outcome (iteration a s) = Ok Continue
            /\ message (state_of (iteration a s)) = t
            /\ conversation (a :: script) s
               = prefix (trace_of (iteration a s))
                   (conversation script
                      {| message := t;
                         chat_history := (chat_history s ++ said r)%list |})))
  /\ (forall d text script' session,
        Qle_bool d timeout = true ->
        outcome (conversation script' (fresh text)) = Ok Finished ->
        websocket_endpoint ((Arrives d text, script') :: session)
        = resume (trace_of (exchange text script'))
                 (websocket_endpoint session)).
Proof.
  intros Hr Htc.
  assert (Htext : forall t, ans_grok a = Ok (Some t) ->
    iteration a s
    = prefix (OpenaiCreate (context (message s) (chat_history s))
                :: map SendJson (spoken r))
        (if t =? "yes" then Ok Break else Ok Continue,
         if t =? "yes" then extend s (said r)
         else {| message := t;
                 chat_history := chat_history (extend s (said r)) |},
         (gate_opening (extend s (said r))
            ++ [SendJson (progress_event ("Feedback from Grok: " ++ t))])%list)).
  { intros t Hg. rewrite (iteration_gate a s r Hr Htc).
    now rewrite (gating_text a _ t Hg). }
  split; [|split].
  - destruct (ans_grok a) as [[t |] | e] eqn:Hg.
    + rewrite (Htext t eq_refl). unfold prefix, outcome; cbn [fst].
      destruct (String.eqb_spec t "yes") as [-> | Hn]; split; intros H;
        try reflexivity; try discriminate.
      injection H as H. contradiction.
    + rewrite (iteration_gate a s r Hr Htc), (gating_no_text a _ Hg).
      split; discriminate.
    + rewrite (iteration_gate a s r Hr Htc), (gating_raises a _ e Hg).
      split; discriminate.
  - intros t Hg. pose proof (Htext t Hg) as Hit.
    assert (Hyes : t = "yes" -> (t =? "yes") = true)
      by (intros ->; reflexivity).
    assert (Hno : t <> "yes" -> (t =? "yes") = false)
      by (intros Hn; destruct (String.eqb_spec t "yes");
          [contradiction | reflexivity]).
    split; [|split].
    + rewrite Hit. unfold prefix, outcome; cbn [fst].
      destruct (String.eqb_spec t "yes"); split; intros H;
        try reflexivity; try assumption; try discriminate; contradiction.
    + intros Ht. rewrite conversation_cons, Hit.
      unfold prefix, state_of, outcome, trace_of; cbn [fst snd].
      rewrite (Hyes Ht). split; reflexivity.
    + intros Ht. rewrite conversation_cons, Hit.
      unfold prefix at 1 2 3 4, state_of, outcome, trace_of; cbn [fst snd].
      rewrite (Hno Ht). repeat split; reflexivity.
  - intros d text script' session Hd Hfin.
    rewrite (endpoint_text d text script' session Hd).
    now rewrite (exchange_finished text script' Hfin).
Qed.

(** ** What a round calls *)

Ltac read_trace :=
  unfold prefix, outcome, state_of, trace_of, gate_opening; cbn [fst snd];
  rewrite ?reasoning_calls_app, ?gate_calls_app, ?events_app,
    ?tool_calls_made_app;
  cbn [reasoning_calls gate_calls events tool_calls_made];
  rewrite ?reasoning_calls_sent, ?gate_calls_sent, ?events_sent,
    ?tool_calls_made_sent;
  cbn [app].

Lemma iteration_reasoning_calls (a : answers V) (s : state) :
  reasoning_calls (trace_of (iteration a s))
  = [context (message s) (chat_history s)].
Proof.
  round_cases a s; read_trace; reflexivity.
Qed.

Lemma iteration_gate_calls (a : answers V) (s : state) (r : chat_message) :
  ans_openai a = Ok r ->
  gate_calls (trace_of (iteration a s))
  = match first_tool_call r with
    | Some _ => []
    | None => [grok_instructions ++ chat_summary (chat_history s ++ said r)]
    end.
Proof.
  intros H. round_cases a s; try discriminate; injection H as <-;
    rewrite Htc; read_trace; reflexivity.
Qed.

Lemma iteration_gate_calls_raise (a : answers V) (s : state) (e : exn) :
  ans_openai a = Raise e ->
  gate_calls (trace_of (iteration a s)) = [].
Proof.
  intros H. now rewrite (iteration_reasoning_raises a s e H).
Qed.

Lemma conversation_trace (script : list (answers V)) (s : state) :
  trace_of (conversation script s)
  = flat_map (fun x => trace_of (iteration (fst x) (snd x))) (rounds script s).
Proof.
  revert s. induction script as [|a script IH]; intros s; [reflexivity|].
  rewrite conversation_cons. cbn [rounds flat_map fst snd].
  destruct (iteration a s) as [[[[|] | e] s1] t1];
    unfold prefix, trace_of; cbn [fst snd flat_map];
    rewrite ?app_nil_r; try reflexivity.
  f_equal. apply IH.
Qed.

Lemma iteration_gate_count (a : answers V) (s : state) :
  length (gate_calls (trace_of (iteration a s))) = if direct a then 1 else 0.
Proof.
  unfold direct. destruct (ans_openai a) as [r | e] eqn:Hr.
  - rewrite (iteration_gate_calls a s r Hr).
    destruct (first_tool_call r); reflexivity.
  - now rewrite (iteration_gate_calls_raise a s e Hr).
Qed.

Lemma conversation_gate_count (script : list (answers V)) (s : state) :
  length (gate_calls (trace_of (conversation script s)))
  = length (filter direct (map fst (rounds script s))).
Proof.
  rewrite conversation_trace.
  induction (rounds script s) as [|[a s'] l IH]; [reflexivity|].
  cbn [flat_map map filter fst snd].
  rewrite gate_calls_app, length_app, IH, iteration_gate_count.
  destruct (direct a); reflexivity.
Qed.

(** ** When the quality-control model is called *)

(** C2, amended.  The trace of the inner loop is the trace of its
    rounds one after the other.  A round calls the quality-control
    model once if the reasoning model returns without a tool call and
    not at all otherwise, so the calls in a whole loop are as many as
    its rounds without a tool call.  A round with a tool call never
    leaves the loop by [break]: if the arguments decode and the
    provider returns, the loop goes on with the next round; if decoding
    or the provider raises, the exception leaves the loop. *)
Theorem gate_called_exactly_in_direct_rounds (script : list (answers V))
    (s : state) :
  trace_of (conversation script s)
  = flat_map (fun x => trace_of (iteration (fst x) (snd x))) (rounds script s)
  /\ (forall a s',
        length (gate_calls (trace_of (iteration a s')))
        = if direct a then 1 else 0)
  /\ length (gate_calls (trace_of (conversation script s)))
     = length (filter direct (map fst (rounds script s)))
  /\ (forall a s' r tc,
        ans_openai a = Ok r ->
        first_tool_call r = Some tc ->
        gate_calls (trace_of (iteration a s')) = []
        /\ outcome (iteration a s') <> Ok Break
        /\ (forall arguments v script',
              json_loads (tc_arguments tc) = Ok arguments ->
              ans_aci a = Ok v ->
              conversation (a :: script') s'
              = prefix (trace_of (iteration a s'))
                  (conversation script'
                     (extend s'
                        (said r ++ [tool_request_turn tc;
                                    tool_result_turn (tc_id tc) (json_dumps v)]))))
        /\ (forall e script',
              json_loads (tc_arguments tc) = Raise e
              \/ (exists arguments,
                    json_loads (tc_arguments tc) = Ok arguments
                    /\ ans_aci a = Raise e) ->
              outcome (conversation (a :: script') s') = Raise e)).
Proof.
  split; [apply conversation_trace|].
  split; [apply iteration_gate_count|].
  split; [apply conversation_gate_count|].
  intros a s' r tc Hr Htc.
  split; [now rewrite (iteration_gate_calls a s' r Hr), Htc|].
  split; [|split].
  - rewrite (iteration_tool a s' r tc Hr Htc).
    destruct (json_loads (tc_arguments tc)) as [args | e] eqn:Hl.
    + destruct (ans_aci a) as [v | e] eqn:Ha.
      * rewrite (tool_dispatch_returns a _ tc args v Hl Ha). discriminate.
      * rewrite (tool_dispatch_raises a _ tc args e Hl Ha). discriminate.
    + rewrite (tool_dispatch_bad_arguments a _ tc e Hl). discriminate.
  - intros args v script' Hl Ha.
    rewrite conversation_cons, (iteration_tool a s' r tc Hr Htc).
    rewrite (tool_dispatch_returns a _ tc args v Hl Ha).
    unfold prefix at 1 2 3, outcome, state_of, trace_of; cbn [fst snd].
    now rewrite extend_extend.
  - intros e script' [Hl | [args [Hl Ha]]];
      rewrite conversation_cons, (iteration_tool a s' r tc Hr Htc).
    + now rewrite (tool_dispatch_bad_arguments a _ tc e Hl).
    + now rewrite (tool_dispatch_raises a _ tc args e Hl Ha).
Qed.

(** ** A retry keeps the history *)

Lemma conversation_reasoning_calls (a : answers V) (script : list (answers V))
    (s : state) :
  reasoning_calls (trace_of (conversation (a :: script) s))
  = context (message s) (chat_history s)
    :: match iteration a s with
       | (Ok Continue, s1, _) => reasoning_calls (trace_of (conversation script s1))
       | _ => []
       end.
Proof.
  rewrite conversation_cons.
  pose proof (iteration_reasoning_calls a s) as H.
  destruct (iteration a s) as [[[[|] | e] s1] t1];
    unfold prefix, trace_of in *; cbn [fst snd] in *;
    rewrite ?reasoning_calls_app, H; reflexivity.
Qed.

(** C5.  When the quality-control model answers a text [t] other than
    [yes], the branch of lines 162-177 changes [message] to [t] and
    leaves [chat_history] as it is, whatever it holds.  Over the whole
    round the history is the one from before the round with the
    assistant turn of this round, if any, at its end; the
    quality-control model was shown that history, and the next call of
    the reasoning model receives the same history after the new
    message. *)
Theorem retry_replaces_message_only (a : answers V) (s : state)
    (r : chat_message) (t : string) :
  ans_openai a = Ok r ->
  first_tool_call r = None ->
  ans_grok a = Ok (Some t) ->
  t <> "yes" ->
  (forall g,
     outcome (gating a g) = Ok Continue
     /\ state_of (gating a g)
        = {| message := t; chat_history := chat_history g |})
  /\ state_of (iteration a s)
     = {| message := t; chat_history := (chat_history s ++ said r)%list |}
  /\ gate_calls (trace_of (iteration a s))
     = [grok_instructions ++ chat_summary (chat_history s ++ said r)]
  /\ (forall a' script,
        reasoning_calls (trace_of (conversation (a :: a' :: script) s))
        = context (message s) (chat_history s)
          :: context t (chat_history s ++ said r)
          :: tl (reasoning_calls
                   (trace_of
                      (conversation (a' :: script)
                         {| message := t;
                            chat_history := (chat_history s ++ said r)%list |})))).
Proof.
  intros Hr Htc Hg Ht.
  assert (Hno : (t =? "yes") = false)
    by (destruct (String.eqb_spec t "yes"); [contradiction | reflexivity]).
  assert (Hit : iteration a s
    = (Ok Continue,
       {| message := t; chat_history := (chat_history s ++ said r)%list |},
       ((OpenaiCreate (context (message s) (chat_history s))
           :: map SendJson (spoken r))
        ++ gate_opening (extend s (said r))
        ++ [SendJson (progress_event ("Feedback from Grok: " ++ t))])%list)).
  { rewrite (iteration_gate a s r Hr Htc), (gating_text a _ t Hg), Hno.
    reflexivity. }
  split; [|split; [|split]].
  - intros g. rewrite (gating_text a g t Hg), Hno. split; reflexivity.
  - now rewrite Hit.
  - now rewrite (iteration_gate_calls a s r Hr), Htc.
  - intros a' script. rewrite conversation_reasoning_calls, Hit.
    rewrite conversation_reasoning_calls. reflexivity.
Qed.

(** ** The transcript shown to the quality-control model *)

Lemma chat_summary_lines (h : list msg) :
  chat_summary h = String.concat nl (transcript_lines h).
Proof.
  unfold chat_summary. f_equal.
  induction h as [|m h IH]; [reflexivity|].
  cbn [filter transcript_lines]. unfold truthy at 1.
  destruct (content m) as [c|] eqn:Hc; [|exact IH].
  destruct (c =? ""); cbn [negb map]; [exact IH|].
  unfold get_content at 1. rewrite Hc. cbn [text_of]. now rewrite <- IH.
Qed.

Lemma transcript_lines_app (h k : list msg) :
  transcript_lines (h ++ k) = (transcript_lines h ++ transcript_lines k)%list.
Proof.
  induction h as [|m h IH]; [reflexivity|].
  cbn [app transcript_lines]. destruct (content m) as [c|]; [|exact IH].
  destruct (c =? ""); [exact IH|]. cbn [app]. now rewrite IH.
Qed.

Lemma transcript_lines_silent (m : msg) :
  truthy (content m) = false -> transcript_lines [m] = [].
Proof.
  unfold truthy. cbn [transcript_lines].
  destruct (content m) as [c|]; [|reflexivity].
  destruct (c =? ""); [reflexivity | discriminate].
Qed.

Lemma transcript_lines_speaking (m : msg) (c : string) :
  content m = Some c -> c <> "" ->
  transcript_lines [m] = [role m ++ ": " ++ c].
Proof.
  intros Hc Hn. cbn [transcript_lines]. rewrite Hc.
  destruct (String.eqb_spec c ""); [contradiction | reflexivity].
Qed.

(** C8.  In a round in which the reasoning model asks for no tool, the
    quality-control model is called once, with the instructions followed
    by the transcript of the history as it is then.  The transcript is
    the lines [role: content] of the turns whose content is present and
    not empty, in the order of the history, joined by newlines: a turn
    with such a content adds its line at its place, a turn without one
    (a tool request in particular) adds nothing. *)
Theorem gate_receives_role_prefixed_transcript (a : answers V) (s : state)
    (r : chat_message) :
  ans_openai a = Ok r ->
  first_tool_call r = None ->
  gate_calls (trace_of (iteration a s))
  = [grok_instructions
     ++ String.concat nl (transcript_lines (chat_history s ++ said r))]
  /\ (forall h, chat_summary h = String.concat nl (transcript_lines h))
  /\ (forall h k m c,
        content m = Some c -> c <> "" ->
        transcript_lines (h ++ m :: k)
        = (transcript_lines h
           ++ (role m ++ ": " ++ c)%string :: transcript_lines k)%list)
  /\ (forall h k m,
        truthy (content m) = false ->
        chat_summary (h ++ m :: k) = chat_summary (h ++ k))
  /\ (forall h k tc,
        chat_summary (h ++ tool_request_turn tc :: k) = chat_summary (h ++ k)).
Proof.
  intros Hr Htc.
  assert (Hsilent : forall h k m, truthy (content m) = false ->
            chat_summary (h ++ m :: k) = chat_summary (h ++ k)).
  { intros h k m Hm. rewrite !chat_summary_lines. f_equal.
    change (m :: k) with ([m] ++ k)%list.
    rewrite !transcript_lines_app, (transcript_lines_silent m Hm).
    reflexivity. }
  split; [|split; [|split; [|split]]].
  - rewrite (iteration_gate_calls a s r Hr), Htc.
    now rewrite chat_summary_lines.
  - apply chat_summary_lines.
  - intros h k m c Hc Hn. change (m :: k) with ([m] ++ k)%list.
    rewrite !transcript_lines_app, (transcript_lines_speaking m c Hc Hn).
    reflexivity.
  - exact Hsilent.
  - intros h k tc. apply Hsilent. reflexivity.
Qed.

(** ** Text and a tool call in one response *)

Lemma said_text (r : chat_message) (c : string) :
  rsp_content r = Some c -> c <> "" ->
  said r = [assistant_turn c] /\ spoken r = [message_event c].
Proof.
  intros Hc Hn. unfold said, spoken, truthy. rewrite Hc. cbn [text_of].
  destruct (String.eqb_spec c ""); [contradiction|]. split; reflexivity.
Qed.

(** C9, amended.  When the response of the reasoning model has a
    non-empty content [c] and a tool call [tc], the round sends the
    event of type [message] whose content is [c] and then the notice of
    the call, appends the assistant turn whose content is [c] and then
    the request turn that holds [tc], and does not call the
    quality-control model.  The tool provider is called in that round,
    once, with the name of [tc] and its decoded arguments, when the
    arguments decode.  When [json.loads] raises on them the provider is
    not called: the round ends with that exception after the two events
    and the two turns.  For any response, with or without content, the
    quality-control model is called exactly when there is no tool
    call. *)
Theorem text_and_tool_call_share_a_round (a : answers V) (s : state)
    (r : chat_message) (c : string) (tc : tool_call) :
  ans_openai a = Ok r ->
  rsp_content r = Some c ->
  c <> "" ->
  first_tool_call r = Some tc ->
  (exists t,
     trace_of (iteration a s)
     = OpenaiCreate (context (message s) (chat_history s))
       :: SendJson {| ev_type := "message"; ev_content := c;
                      ev_chat_history := None |}
       :: SendJson {| ev_type := "progress";
                      ev_content := "Function Call: " ++ tc_name tc ++ nl
                                    ++ "Arguments: " ++ tc_arguments tc;
                      ev_chat_history := None |}
       :: t)
  /\ (exists h,
        chat_history (state_of (iteration a s))
        = (chat_history s
           ++ {| role := "assistant"; content := Some c;
                 tool_calls := None; tool_call_id := None |}
           :: {| role := "assistant"; content := None;
                 tool_calls := Some [tc]; tool_call_id := None |}
           :: h)%list)
  /\ (forall arguments,
        json_loads (tc_arguments tc) = Ok arguments ->
        tool_calls_made (trace_of (iteration a s)) = [(tc_name tc, arguments)])
  /\ (forall e,
        json_loads (tc_arguments tc) = Raise e ->
        tool_calls_made (trace_of (iteration a s)) = []
        /\ iteration a s
           = (Raise e,
              {| message := message s;
                 chat_history :=
                   (chat_history s
                    ++ [ {| role := "assistant"; content := Some c;
                            tool_calls := None; tool_call_id := None |};
                         {| role := "assistant"; content := None;
                            tool_calls := Some [tc]; tool_call_id := None |} ])%list |},
              [ OpenaiCreate (context (message s) (chat_history s));
                SendJson {| ev_type := "message"; ev_content := c;
                            ev_chat_history := None |};
                SendJson {| ev_type := "progress";
                            ev_content := "Function Call: " ++ tc_name tc ++ nl
                                          ++ "Arguments: " ++ tc_arguments tc;
                            ev_chat_history := None |} ]))
  /\ gate_calls (trace_of (iteration a s)) = []
  /\ (forall a' s' r',
        ans_openai a' = Ok r' ->
        length (gate_calls (trace_of (iteration a' s'))) = 1
        <-> first_tool_call r' = None).
Proof.
  intros Hr Hc Hn Htc.
  destruct (said_text r c Hc Hn) as [Hsaid Hspoken].
  split; [|split; [|split; [|split; [|split]]]].
  - rewrite (iteration_tool a s r tc Hr Htc), Hspoken.
    destruct (json_loads (tc_arguments tc)) as [args | e] eqn:Hl.
    + destruct (ans_aci a) as [v | e] eqn:Ha.
      * rewrite (tool_dispatch_returns a _ tc args v Hl Ha).
        eexists; reflexivity.
      * rewrite (tool_dispatch_raises a _ tc args e Hl Ha).
        eexists; reflexivity.
    + rewrite (tool_dispatch_bad_arguments a _ tc e Hl).
      eexists; reflexivity.
  - rewrite (iteration_tool a s r tc Hr Htc), Hsaid.
    destruct (json_loads (tc_arguments tc)) as [args | e] eqn:Hl.
    + destruct (ans_aci a) as [v | e] eqn:Ha.
      * rewrite (tool_dispatch_returns a _ tc args v Hl Ha).
        unfold prefix, state_of, extend; cbn [fst snd chat_history].
        rewrite <- app_assoc. eexists; reflexivity.
      * rewrite (tool_dispatch_raises a _ tc args e Hl Ha).
        unfold prefix, state_of, extend; cbn [fst snd chat_history].
        rewrite <- app_assoc. eexists; reflexivity.
    + rewrite (tool_dispatch_bad_arguments a _ tc e Hl).
      unfold prefix, state_of, extend; cbn [fst snd chat_history].
      rewrite <- app_assoc. eexists; reflexivity.
  - intros args Hl. rewrite (iteration_tool a s r tc Hr Htc).
    destruct (ans_aci a) as [v | e] eqn:Ha.
    + rewrite (tool_dispatch_returns a _ tc args v Hl Ha).
      read_trace. reflexivity.
    + rewrite (tool_dispatch_raises a _ tc args e Hl Ha).
      read_trace. reflexivity.
  - intros e Hl.
    rewrite (iteration_tool a s r tc Hr Htc),
      (tool_dispatch_bad_arguments a _ tc e Hl), Hsaid, Hspoken.
    split; [read_trace; reflexivity|].
    unfold prefix, outcome, state_of, trace_of, extend;
      cbn [fst snd chat_history message].
    rewrite <- app_assoc. reflexivity.
  - now rewrite (iteration_gate_calls a s r Hr), Htc.
  - intros a' s' r' Hr'. rewrite (iteration_gate_calls a' s' r' Hr').
    destruct (first_tool_call r'); split; intros H;
      try reflexivity; discriminate.
Qed.

(** ** Failures while a message is processed *)

Lemma error_events_app (es fs : list event) :
  error_events (es ++ fs) = (error_events es ++ error_events fs)%list.
Proof. apply filter_app. Qed.

Lemma error_events_cons (e : event) (es : list event) :
  error_events (e :: es)
  = ((if is_error e then [e] else []) ++ error_events es)%list.
Proof. unfold error_events; cbn [filter]. now destruct (is_error e). Qed.

Lemma spoken_no_error (r : chat_message) : error_events (spoken r) = [].
Proof. unfold spoken. destruct (truthy (rsp_content r)); reflexivity. Qed.

Lemma iteration_no_error_events (a : answers V) (s : state) :
  error_events (events (trace_of (iteration a s))) = [].
Proof.
  round_cases a s; read_trace;
    rewrite ?error_events_app, ?spoken_no_error; reflexivity.
Qed.

Lemma conversation_no_error_events (script : list (answers V)) (s : state) :
  error_events (events (trace_of (conversation script s))) = [].
Proof.
  rewrite conversation_trace.
  induction (rounds script s) as [|[a s'] l IH]; [reflexivity|].
  cbn [flat_map fst snd].
  now rewrite events_app, error_events_app, iteration_no_error_events, IH.
Qed.

Lemma raise_leaves_loop (script : list (answers V)) (s : state)
    (a : answers V) (s' : state) (e : exn) :
  In (a, s') (rounds script s) ->
  outcome (iteration a s') = Raise e ->
  outcome (conversation script s) = Raise e.
Proof.
  revert s. induction script as [|a0 script IH]; intros s; [intros []|].
  cbn [rounds]. rewrite conversation_cons.
  intros [Heq | Hin] He.
  - injection Heq as -> ->. clear IH.
    destruct (iteration a s') as [[[[|] | e'] s1] t1];
      unfold outcome in *; cbn [fst] in *; try discriminate.
    now injection He as ->.
  - destruct (iteration a0 s) as [[[[|] | e'] s1] t1]; try contradiction.
    unfold prefix, outcome at 1; cbn [fst]. now apply (IH s1).
Qed.

(** What [said] appends can be encoded; a round leaves a history that
    can be encoded exactly when it started on one and asked for no
    tool. *)
Lemma serializable_said (r : chat_message) :
  forallb serializable (said r) = true.
Proof. unfold said. now destruct (truthy (rsp_content r)). Qed.

Lemma iteration_serializable (a : answers V) (s : state) :
  forallb serializable (chat_history (state_of (iteration a s)))
  = forallb serializable (chat_history s) && negb (tool_requesting a).
Proof.
  unfold tool_requesting.
  round_cases a s; unfold prefix, state_of, extend;
    cbn [fst snd chat_history negb];
    try (destruct (t =? "yes"); cbn [chat_history]);
    rewrite ?forallb_app, ?serializable_said;
    cbn [forallb serializable tool_request_turn tool_result_turn tool_calls];
    rewrite ?andb_true_r, ?andb_false_r; reflexivity.
Qed.

Lemma conversation_serializable (script : list (answers V)) (s : state) :
  forallb serializable (chat_history (state_of (conversation script s)))
  = forallb serializable (chat_history s)
    && forallb (fun x => negb (tool_requesting (fst x))) (rounds script s).
Proof.
  revert s. induction script as [|a script IH]; intros s.
  - cbn. now rewrite andb_true_r.
  - rewrite conversation_cons. cbn [rounds forallb fst].
    pose proof (iteration_serializable a s) as Hit.
    destruct (iteration a s) as [[[[|] | e] s1] t1];
      unfold state_of in Hit; cbn [fst snd] in Hit;
      unfold prefix, state_of at 1; cbn [fst snd forallb];
      rewrite ?andb_true_r; try exact Hit.
    fold (state_of (conversation script s1)).
    now rewrite (IH s1), Hit, andb_assoc.
Qed.

(** C6.  When the inner loop raises [e] while the message [text] is
    processed, what happens next depends on the history at the raise.
    It can be encoded exactly when no round that was run for the message
    asked for a tool.  If it can, the events sent for the message are
    the first progress event, the events of the loop, and then one event
    of type [error] whose content is [e] and whose history is the
    history at the raise; it is the only error event, and the session
    goes on with the next inbound message.  If it cannot, because a turn
    of line 139 holds the object of a tool call, [send_json] raises at
    line 182: no error event is sent, and the connection task ends with
    the [TypeError] at line 195 without reading the next inbound
    message.  An exception of the reasoning model, of the
    quality-control model or of the decoding of the arguments of a tool
    call, in a round that is run, is such a raise. *)
Theorem failure_reported_unless_history_holds_a_tool_call (text : string)
    (script : list (answers V)) (e : exn) :
  outcome (conversation script (fresh text)) = Raise e ->
  forallb serializable
    (chat_history (state_of (conversation script (fresh text))))
  = forallb (fun x => negb (tool_requesting (fst x))) (rounds script (fresh text))
  /\ (forallb serializable
        (chat_history (state_of (conversation script (fresh text)))) = true ->
      outcome (exchange text script) = Ok (Errored e)
      /\ trace_of (exchange text script)
         = (SendJson {| ev_type := "progress";
                        ev_content := "Processing your request...";
                        ev_chat_history := None |}
            :: trace_of (conversation script (fresh text))
            ++ [SendJson
                  {| ev_type := "error"; ev_content := e;
                     ev_chat_history :=
                       Some (chat_history
                               (state_of (conversation script (fresh text)))) |}])%list
      /\ error_events (events (trace_of (exchange text script)))
         = [ {| ev_type := "error"; ev_content := e;
                ev_chat_history :=
                  Some (chat_history
                          (state_of (conversation script (fresh text)))) |} ]
      /\ (forall d session,
            Qle_bool d timeout = true ->
            websocket_endpoint ((Arrives d text, script) :: session)
            = resume (trace_of (exchange text script))
                     (websocket_endpoint session)))
  /\ (forallb serializable
        (chat_history (state_of (conversation script (fresh text)))) = false ->
      outcome (exchange text script) = Raise not_serializable
      /\ trace_of (exchange text script)
         = SendJson {| ev_type := "progress";
                       ev_content := "Processing your request...";
                       ev_chat_history := None |}
           :: trace_of (conversation script (fresh text))
      /\ error_events (events (trace_of (exchange text script))) = []
      /\ (forall d session,
            Qle_bool d timeout = true ->
            websocket_endpoint ((Arrives d text, script) :: session)
            = (Crashed not_serializable, trace_of (exchange text script))))
  /\ (forall a s script' s0,
        In (a, s) (rounds script' s0) ->
        (ans_openai a = Raise e
         \/ (exists r, ans_openai a = Ok r /\ first_tool_call r = None
                       /\ ans_grok a = Raise e)
         \/ (exists r tc, ans_openai a = Ok r /\ first_tool_call r = Some tc
                          /\ json_loads (tc_arguments tc) = Raise e)) ->
        outcome (conversation script' s0) = Raise e).
Proof.
  intros He.
  pose proof (conversation_no_error_events script (fresh text)) as Hnone.
  pose proof (conversation_serializable script (fresh text)) as Hser.
  cbn [fresh chat_history forallb andb] in Hser.
  split; [exact Hser|]. clear Hser.
  split; [|split].
  - intros Hh.
    assert (Hx : exchange text script
      = (Ok (Errored e), state_of (conversation script (fresh text)),
         (SendJson (progress_event "Processing your request...")
          :: trace_of (conversation script (fresh text))
          ++ [SendJson
                (error_event e
                   (chat_history
                      (state_of (conversation script (fresh text)))))])%list)).
    { rewrite exchange_run.
      destruct (conversation script (fresh text)) as [[[[|] | e'] s1] t1];
        unfold outcome in He; cbn [fst] in He; try discriminate.
      injection He as ->. unfold state_of in Hh |- *; cbn [fst snd] in Hh |- *.
      rewrite Hh. reflexivity. }
    split; [now rewrite Hx|]. split; [now rewrite Hx|]. split.
    + rewrite Hx. unfold trace_of at 1; cbn [snd events].
      rewrite error_events_cons, !events_app, !error_events_app, Hnone.
      reflexivity.
    + intros d session Hd.
      rewrite (endpoint_text d text script session Hd), Hx. reflexivity.
  - intros Hh.
    assert (Hx : exchange text script
      = (Raise not_serializable, state_of (conversation script (fresh text)),
         SendJson (progress_event "Processing your request...")
         :: trace_of (conversation script (fresh text)))).
    { rewrite exchange_run.
      destruct (conversation script (fresh text)) as [[[[|] | e'] s1] t1];
        unfold outcome in He; cbn [fst] in He; try discriminate.
      unfold state_of in Hh |- *; cbn [fst snd] in Hh |- *.
      rewrite Hh. reflexivity. }
    split; [now rewrite Hx|]. split; [now rewrite Hx|]. split.
    + rewrite Hx. unfold trace_of at 1; cbn [snd events].
      rewrite error_events_cons, Hnone. reflexivity.
    + intros d session Hd.
      rewrite (endpoint_text d text script session Hd), Hx. reflexivity.
  - intros a s script' s0 Hin Hsrc. apply (raise_leaves_loop _ _ a s e Hin).
    destruct Hsrc as [Hr | [[r [Hr [Htc Hg]]] | [r [tc [Hr [Htc Hl]]]]]].
    + now rewrite (iteration_reasoning_raises a s e Hr).
    + now rewrite (iteration_gate a s r Hr Htc), (gating_raises a _ e Hg).
    + now rewrite (iteration_tool a s r tc Hr Htc),
        (tool_dispatch_bad_arguments a _ tc e Hl).
Qed.

(** ** Silence of the client *)

Lemma endpoint_app (before session : list (inbound * list (answers V)))
    (t : list (action J)) :
  websocket_endpoint before = (Listening, t) ->
  websocket_endpoint (before ++ session)
  = resume t (websocket_endpoint session).
Proof.
  revert t. induction before as [|[i script] before IH]; intros t.
  - cbn. intros H. injection H as <-.
    unfold resume. now destruct (websocket_endpoint session).
  - cbn [app websocket_endpoint].
    destruct (wait_for i timeout); try discriminate.
    destruct (exchange text script) as [[[[| e |] | e] s1] t1];
      try discriminate.
    + destruct (websocket_endpoint before) as [c t'] eqn:Hb.
      intros H. injection H as -> <-.
      rewrite (IH t' eq_refl). unfold resume; cbn [fst snd].
      now rewrite app_assoc.
    + destruct (websocket_endpoint before) as [c t'] eqn:Hb.
      intros H. injection H as -> <-.
      rewrite (IH t' eq_refl). unfold resume; cbn [fst snd].
      now rewrite app_assoc.
Qed.

Lemma wait_for_late (i : inbound) (limit : Q) :
  (forall d, completes i = Some d -> (limit < d)%Q) ->
  wait_for i limit = TimeoutError.
Proof.
  intros H.
  assert (Hlate : forall d, (limit < d)%Q -> Qle_bool d limit = false).
  { intros d Hd. destruct (Qle_bool d limit) eqn:Hb; [|reflexivity].
    apply Qle_bool_iff in Hb. exfalso. now apply (Qlt_not_le limit d). }
  destruct i as [d text | d | d e |]; cbn [wait_for completes] in *;
    try rewrite (Hlate d (H d eq_refl)); reflexivity.
Qed.

(** C7.  If the receive of the next inbound message does not complete
    within 600 seconds, [wait_for] raises the timeout, and the
    connection task leaves its receive loop there: whatever the session
    did before, its trace ends with what was sent before the wait, so
    no event, and no error event in particular, is sent for the
    timeout, and nothing of the rest of the session is processed. *)
Theorem timeout_closes_silently (i : inbound) (script : list (answers V))
    (session : list (inbound * list (answers V))) :
  (forall d, completes i = Some d -> (600 < d)%Q) ->
  wait_for i timeout = TimeoutError
  /\ websocket_endpoint ((i, script) :: session) = (TimedOut, [])
  /\ (forall before t,
        websocket_endpoint before = (Listening, t) ->
        websocket_endpoint (before ++ (i, script) :: session) = (TimedOut, t)
        /\ error_events
             (events (snd (websocket_endpoint (before ++ (i, script) :: session))))
           = error_events (events t)).
Proof.
  intros H.
  assert (Hw : wait_for i timeout = TimeoutError) by now apply wait_for_late.
  assert (He : websocket_endpoint ((i, script) :: session) = (TimedOut, []))
    by (cbn [websocket_endpoint]; now rewrite Hw).
  split; [exact Hw|]. split; [exact He|].
  intros before t Hb.
  rewrite (endpoint_app before _ t Hb), He. unfold resume; cbn [fst snd].
  rewrite app_nil_r. split; reflexivity.
Qed.

(** ** The outcome of a tool call *)

Lemma conversation_second_call (a a' : answers V) (script : list (answers V))
    (s s1 : state) (t1 : list (action J)) :
  iteration a s = (Ok Continue, s1, t1) ->
  nth_error (reasoning_calls (trace_of (conversation (a :: a' :: script) s))) 1
  = Some (context (message s1) (chat_history s1)).
Proof.
  intros H. rewrite conversation_reasoning_calls, H.
  now rewrite conversation_reasoning_calls.
Qed.

(** C1, amended.  In a round with a tool call whose arguments decode:
    if the provider returns a value, whatever it reports, the round
    appends the request turn and then the result turn with the [id] of
    the call and the serialized value, goes on, and the next call of the
    reasoning model receives that history; if the provider raises, no
    result turn is appended, the exception leaves the inner loop, and
    the call of the reasoning model of that round is the last one made
    for the message. *)
Theorem tool_value_folded_and_tool_raise_leaves_loop (a : answers V) (s : state)
    (r : chat_message) (tc : tool_call) (arguments : J) :
  ans_openai a = Ok r ->
  first_tool_call r = Some tc ->
  json_loads (tc_arguments tc) = Ok arguments ->
  (forall v,
     ans_aci a = Ok v ->
     outcome (iteration a s) = Ok Continue
     /\ chat_history (state_of (iteration a s))
        = (chat_history s ++ said r
           ++ [ {| role := "assistant"; content := None;
                   tool_calls := Some [tc]; tool_call_id := None |};
                {| role := "tool"; content := Some (json_dumps v);
                   tool_calls := None; tool_call_id := Some (tc_id tc) |} ])%list
     /\ (forall a' script,
           nth_error
             (reasoning_calls (trace_of (conversation (a :: a' :: script) s))) 1
           = Some (context (message s)
                     (chat_history s ++ said r
                      ++ [ {| role := "assistant"; content := None;
                              tool_calls := Some [tc]; tool_call_id := None |};
                           {| role := "tool"; content := Some (json_dumps v);
                              tool_calls := None;
                              tool_call_id := Some (tc_id tc) |} ]))))
  /\ (forall e,
        ans_aci a = Raise e ->
        outcome (iteration a s) = Raise e
        /\ chat_history (state_of (iteration a s))
           = (chat_history s ++ said r
              ++ [ {| role := "assistant"; content := None;
                      tool_calls := Some [tc]; tool_call_id := None |} ])%list
        /\ tool_results (chat_history (state_of (iteration a s)))
           = tool_results (chat_history s)
        /\ (forall script,
              outcome (conversation (a :: script) s) = Raise e
              /\ reasoning_calls (trace_of (conversation (a :: script) s))
                 = [context (message s) (chat_history s)])
        /\ (forall text before t script,
              conversation before (fresh text) = (Ok Reasoning, s, t) ->
              outcome (conversation (before ++ a :: script) (fresh text))
              = Raise e
              /\ reasoning_calls
                   (trace_of (exchange text (before ++ a :: script)))
                 = (reasoning_calls t
                    ++ [context (message s) (chat_history s)])%list)).
Proof.
  intros Hr Htc Hl. split.
  - intros v Ha.
    assert (Hit : iteration a s
      = (Ok Continue,
         extend s (said r ++ [tool_request_turn tc;
                              tool_result_turn (tc_id tc) (json_dumps v)]),
         ((OpenaiCreate (context (message s) (chat_history s))
             :: map SendJson (spoken r))
          ++ [SendJson (progress_event (call_notice tc));
              HandleFunctionCall (tc_name tc) arguments;
              SendJson (progress_event
                          ("Function Result: " ++ json_dumps_indent v))])%list)).
    { rewrite (iteration_tool a s r tc Hr Htc),
        (tool_dispatch_returns a _ tc arguments v Hl Ha).
      unfold prefix, outcome, state_of, trace_of; cbn [fst snd].
      now rewrite extend_extend. }
    split; [now rewrite Hit|]. split; [now rewrite Hit|].
    intros a' script. now rewrite (conversation_second_call a a' script s _ _ Hit).
  - intros e Ha.
    assert (Hit : iteration a s
      = (Raise e, extend s (said r ++ [tool_request_turn tc]),
         ((OpenaiCreate (context (message s) (chat_history s))
             :: map SendJson (spoken r))
          ++ [SendJson (progress_event (call_notice tc));
              HandleFunctionCall (tc_name tc) arguments])%list)).
    { rewrite (iteration_tool a s r tc Hr Htc),
        (tool_dispatch_raises a _ tc arguments e Hl Ha).
      unfold prefix, outcome, state_of, trace_of; cbn [fst snd].
      now rewrite extend_extend. }
    assert (Hc : forall script, conversation (a :: script) s
      = (Raise e, extend s (said r ++ [tool_request_turn tc]),
         ((OpenaiCreate (context (message s) (chat_history s))
             :: map SendJson (spoken r))
          ++ [SendJson (progress_event (call_notice tc));
              HandleFunctionCall (tc_name tc) arguments])%list))
      by (intros script; now rewrite conversation_cons, Hit).
    split; [|split; [|split]];
      [now rewrite Hit | now rewrite Hit | | split].
    + rewrite Hit. unfold state_of, extend, tool_results;
        cbn [fst snd chat_history].
      rewrite !filter_app, !length_app.
      assert (Hs : filter is_tool_result (said r) = [])
        by (unfold said; now destruct (truthy (rsp_content r))).
      rewrite Hs. cbn. lia.
    + intros script. split; [now rewrite (Hc script)|].
      now rewrite conversation_reasoning_calls, Hit.
    + intros text before t script Hb.
      pose proof (conversation_app before (a :: script) _ _ _ Hb) as Happ.
      rewrite (Hc script) in Happ. split; [now rewrite Happ|].
      rewrite exchange_run, Happ.
      unfold prefix, outcome, state_of, trace_of; cbn [fst snd].
      destruct (forallb serializable
                  (chat_history (extend s (said r ++ [tool_request_turn tc]))));
        cbn [fst snd reasoning_calls];
        rewrite !reasoning_calls_app; cbn [reasoning_calls app];
        rewrite ?reasoning_calls_app, reasoning_calls_sent;
        cbn [reasoning_calls app]; rewrite ?app_nil_r; reflexivity.
Qed.

(** ** The states a loop goes through *)

Lemma iteration_continue (a : answers V) (s s1 : state) (t1 : list (action J)) :
  iteration a s = (Ok Continue, s1, t1) ->
  exists r,
    ans_openai a = Ok r
    /\ ((exists tc v,
           first_tool_call r = Some tc
           /\ s1 = extend s (said r ++ [tool_request_turn tc;
                                        tool_result_turn (tc_id tc) (json_dumps v)]))
        \/ (exists t,
              first_tool_call r = None
              /\ ans_grok a = Ok (Some t)
              /\ s1 = {| message := t;
                         chat_history := (chat_history s ++ said r)%list |})).
Proof.
  round_cases a s; unfold prefix, outcome, state_of, trace_of; cbn [fst snd];
    intros H; try discriminate.
  - exists r. split; [reflexivity|]. left. exists tc, v. split; [exact Htc|].
    injection H as <- _. now rewrite extend_extend.
  - exists r. split; [reflexivity|]. right. exists t. split; [exact Htc|].
    split; [reflexivity|].
    destruct (t =? "yes"); [discriminate|]. now injection H as <- _.
Qed.

Lemma rounds_invariant (P : state -> Prop) :
  (forall a s s1 t1, P s -> iteration a s = (Ok Continue, s1, t1) -> P s1) ->
  forall script s, P s -> forall x, In x (rounds script s) -> P (snd x).
Proof.
  intros Hstep script. induction script as [|a script IH]; intros s Hs x;
    [intros []|].
  cbn [rounds]. intros [<- | Hin]; [exact Hs|].
  destruct (iteration a s) as [[[[|] | e] s1] t1] eqn:Hit; try contradiction.
  apply (IH s1); [|exact Hin]. now apply (Hstep a s s1 t1).
Qed.

Lemma reasoning_calls_rounds (script : list (answers V)) (s : state) :
  reasoning_calls (trace_of (conversation script s))
  = map (fun x => context (message (snd x)) (chat_history (snd x)))
        (rounds script s).
Proof.
  rewrite conversation_trace.
  induction (rounds script s) as [|[a s'] l IH]; [reflexivity|].
  cbn [flat_map map fst snd].
  now rewrite reasoning_calls_app, iteration_reasoning_calls, IH.
Qed.

Lemma exchange_reasoning_calls (text : string) (script : list (answers V)) :
  reasoning_calls (trace_of (exchange text script))
  = reasoning_calls (trace_of (conversation script (fresh text))).
Proof.
  rewrite exchange_run.
  destruct (conversation script (fresh text)) as [[[[|] | e] s1] t1];
    try destruct (forallb serializable (chat_history s1));
    read_trace; rewrite ?app_nil_r; reflexivity.
Qed.

(** ** Requests and their results *)

Lemma paired_app (h : list msg) :
  (paired h = true -> forall k, paired (h ++ k) = paired k)
  /\ (forall m, paired (m :: h) = true ->
                forall k, paired ((m :: h) ++ k) = paired k).
Proof.
  induction h as [|m' h [IH1 IH2]].
  - split; [reflexivity|]. intros m. cbn [paired app].
    destruct (tool_calls m) as [[|tc [|]]|], (tool_call_id m);
      try discriminate. reflexivity.
  - split; [exact (IH2 m')|]. intros m. cbn [paired app].
    destruct (tool_calls m) as [[|tc [|]]|], (tool_call_id m);
      try discriminate.
    + intros H k. apply andb_prop in H as [Hres Hh].
      rewrite Hres. cbn [andb]. now apply IH1.
    + intros H k. now apply (IH2 m').
Qed.

Lemma paired_extend (h k : list msg) :
  paired h = true -> paired k = true -> paired (h ++ k) = true.
Proof. intros Hh Hk. now rewrite (proj1 (paired_app h) Hh). Qed.

Lemma paired_said (r : chat_message) : paired (said r) = true.
Proof. unfold said. destruct (truthy (rsp_content r)); reflexivity. Qed.

Lemma paired_request_result (tc : tool_call) (text : string) :
  paired [tool_request_turn tc; tool_result_turn (tc_id tc) text] = true.
Proof.
  cbn [paired tool_request_turn tool_calls tool_call_id].
  unfold is_result_for, is_request, tool_result_turn.
  cbn [tool_calls tool_call_id negb andb].
  now rewrite String.eqb_refl.
Qed.

Lemma paired_head (m : msg) (h : list msg) :
  paired (m :: h) = true -> is_tool_result m = false.
Proof.
  cbn [paired]. unfold is_tool_result.
  destruct (tool_calls m) as [[|tc [|]]|], (tool_call_id m);
    try discriminate; reflexivity.
Qed.

Lemma paired_answered (h : list msg) : paired h = true -> answered h.
Proof.
  assert (H2 : forall n h, length h <= n -> paired h = true -> answered h).
  { clear h. induction n as [|n IH]; intros h Hlen Hp.
    - destruct h; [|cbn in Hlen; lia].
      split; intros [|i] m Hn; discriminate.
    - destruct h as [|m h]; [split; intros [|i] m Hn; discriminate|].
      cbn [length] in Hlen.
      pose proof Hp as Hp'. cbn [paired] in Hp'.
      destruct (tool_calls m) as [[|tc [|]]|] eqn:Hcalls,
               (tool_call_id m) eqn:Hid; try discriminate.
      + (* a request and its result *)
        destruct h as [|m' h]; [discriminate|].
        apply andb_prop in Hp' as [Hres Hh].
        assert (Ha : answered h) by (apply IH; [cbn in Hlen; lia | exact Hh]).
        destruct Ha as [Ha1 Ha2].
        assert (Hm' : is_request m' = false /\ is_tool_result m' = true).
        { unfold is_result_for in Hres. apply andb_prop in Hres as [Hq Hi].
          split; [now destruct (is_request m')|].
          unfold is_tool_result. now destruct (tool_call_id m'). }
        destruct Hm' as [Hq Hi].
        split.
        * intros [|[|i]] x Hn Hx; cbn [nth_error] in Hn.
          -- injection Hn as <-. exists tc, m'.
             repeat split; try assumption; try reflexivity.
             intros m'' Hn'. cbn [nth_error] in Hn'.
             destruct h as [|y h]; [discriminate|]. injection Hn' as <-.
             now apply (paired_head y h).
          -- injection Hn as <-. congruence.
          -- destruct (Ha1 i x Hn Hx) as [tc' [x' [E1 [E2 [E3 E4]]]]].
             exists tc', x'. repeat split; assumption.
        * intros [|[|i]] x Hn Hx; cbn [nth_error] in Hn.
          -- injection Hn as <-. unfold is_tool_result in Hx.
             rewrite Hid in Hx. discriminate.
          -- injection Hn as <-. exists 0, m. repeat split.
             unfold is_request. now rewrite Hcalls.
          -- destruct (Ha2 i x Hn Hx) as [j [x' [E1 [E2 E3]]]].
             exists (S (S j)), x'. subst i. repeat split; assumption.
      + (* a turn that neither requests nor answers *)
        assert (Ha : answered h) by (apply IH; [lia | exact Hp']).
        destruct Ha as [Ha1 Ha2].
        split.
        * intros [|i] x Hn Hx; cbn [nth_error] in Hn.
          -- injection Hn as <-. unfold is_request in Hx.
             rewrite Hcalls in Hx. discriminate.
          -- destruct (Ha1 i x Hn Hx) as [tc' [x' [E1 [E2 [E3 E4]]]]].
             exists tc', x'. repeat split; assumption.
        * intros [|i] x Hn Hx; cbn [nth_error] in Hn.
          -- injection Hn as <-. unfold is_tool_result in Hx.
             rewrite Hid in Hx. discriminate.
          -- destruct (Ha2 i x Hn Hx) as [j [x' [E1 [E2 E3]]]].
             exists (S j), x'. subst i. repeat split; assumption. }
  apply (H2 (length h)). lia.
Qed.

Lemma paired_step (a : answers V) (s s1 : state) (t1 : list (action J)) :
  paired (chat_history s) = true ->
  iteration a s = (Ok Continue, s1, t1) ->
  paired (chat_history s1) = true.
Proof.
  intros Hp Hit.
  destruct (iteration_continue a s s1 t1 Hit)
    as [r [Hr [[tc [v [Htc ->]]] | [t [Htc [Hg ->]]]]]];
    cbn [extend chat_history].
  - apply paired_extend; [exact Hp|].
    apply paired_extend; [apply paired_said | apply paired_request_result].
  - apply paired_extend; [exact Hp | apply paired_said].
Qed.

Lemma said_counts (r : chat_message) :
  requests (said r) = 0 /\ tool_results (said r) = 0.
Proof. unfold said. destruct (truthy (rsp_content r)); split; reflexivity. Qed.

(** C4, amended.  The messages of every call of the reasoning model are
    the system turn, one user turn and a history in which every request
    turn holds one call and is directly followed by one result turn for
    that call, and no result turn stands elsewhere.  A round with a tool
    call that goes on to the next round has appended the assistant text,
    if any, then one request turn, then one result turn with the [id] of
    the request; a round with a tool call that raises has appended the
    request turn and no result turn, and no call of the reasoning model
    follows it.  A round without a tool call appends neither. *)
Theorem requests_answered_at_every_reasoning_call (text : string)
    (script : list (answers V)) :
  Forall (fun messages =>
            exists q h,
              messages = system_turn :: user_turn q :: h
              /\ paired h = true /\ answered h)
         (reasoning_calls (trace_of (exchange text script)))
  /\ (forall a s r tc,
        ans_openai a = Ok r ->
        first_tool_call r = Some tc ->
        (forall s1 t1,
           iteration a s = (Ok Continue, s1, t1) ->
           exists v,
             chat_history s1
             = (chat_history s ++ said r
                ++ [tool_request_turn tc;
                    tool_result_turn (tc_id tc) (json_dumps v)])%list)
        /\ (forall e,
              outcome (iteration a s) = Raise e ->
              chat_history (state_of (iteration a s))
              = (chat_history s ++ said r ++ [tool_request_turn tc])%list
              /\ forall script',
                   reasoning_calls (trace_of (conversation (a :: script') s))
                   = [context (message s) (chat_history s)]))
  /\ (forall a s r,
        ans_openai a = Ok r ->
        first_tool_call r = None ->
        chat_history (state_of (iteration a s)) = (chat_history s ++ said r)%list
        /\ requests (said r) = 0 /\ tool_results (said r) = 0).
Proof.
  split; [|split].
  - rewrite exchange_reasoning_calls, reasoning_calls_rounds.
    apply Forall_map, Forall_forall. intros x Hx.
    exists (message (snd x)), (chat_history (snd x)).
    split; [reflexivity|].
    assert (Hp : paired (chat_history (snd x)) = true).
    { apply (rounds_invariant (fun s => paired (chat_history s) = true))
        with (script := script) (s := fresh text); try assumption.
      - intros a s s1 t1. apply paired_step.
      - reflexivity. }
    split; [exact Hp | now apply paired_answered].
  - intros a s r tc Hr Htc. split.
    + intros s1 t1 Hit.
      destruct (iteration_continue a s s1 t1 Hit)
        as [r' [Hr' [[tc' [v [Htc' ->]]] | [t [Htc' _]]]]];
        assert (r' = r) by congruence; subst r'; [|congruence].
      assert (tc' = tc) by congruence; subst tc'.
      exists v. reflexivity.
    + intros e. rewrite (iteration_tool a s r tc Hr Htc).
      destruct (json_loads (tc_arguments tc)) as [args | e'] eqn:Hl.
      * destruct (ans_aci a) as [v | e'] eqn:Ha.
        -- rewrite (tool_dispatch_returns a _ tc args v Hl Ha). discriminate.
        -- intros _. split.
           ++ rewrite (tool_dispatch_raises a _ tc args e' Hl Ha).
              unfold prefix, state_of, extend; cbn [fst snd chat_history].
              now rewrite app_assoc.
           ++ intros script'.
              rewrite conversation_reasoning_calls,
                (iteration_tool a s r tc Hr Htc),
                (tool_dispatch_raises a _ tc args e' Hl Ha).
              reflexivity.
      * intros _. split.
        -- rewrite (tool_dispatch_bad_arguments a _ tc e' Hl).
           unfold prefix, state_of, extend; cbn [fst snd chat_history].
           now rewrite app_assoc.
        -- intros script'.
           rewrite conversation_reasoning_calls,
             (iteration_tool a s r tc Hr Htc),
             (tool_dispatch_bad_arguments a _ tc e' Hl).
           reflexivity.
  - intros a s r Hr Htc. split; [|apply said_counts].
    rewrite (iteration_gate a s r Hr Htc).
    destruct (ans_grok a) as [[t |] | e] eqn:Hg.
    + rewrite (gating_text a _ t Hg). unfold prefix, state_of; cbn [fst snd].
      destruct (t =? "yes"); reflexivity.
    + now rewrite (gating_no_text a _ Hg).
    + now rewrite (gating_raises a _ e Hg).
Qed.

(** ** Where the message of the user is *)

Lemma from_loop_said (r : chat_message) : Forall from_loop (said r).
Proof.
  unfold said. destruct (truthy (rsp_content r)); constructor;
    [now left | constructor].
Qed.

Lemma from_loop_step (a : answers V) (s s1 : state) (t1 : list (action J)) :
  Forall from_loop (chat_history s) ->
  iteration a s = (Ok Continue, s1, t1) ->
  Forall from_loop (chat_history s1).
Proof.
  intros Hp Hit.
  destruct (iteration_continue a s s1 t1 Hit)
    as [r [Hr [[tc [v [Htc ->]]] | [t [Htc [Hg ->]]]]]];
    cbn [extend chat_history]; rewrite ?Forall_app; repeat split;
    try exact Hp; try apply from_loop_said.
  constructor; [now left|]. constructor; [now right | constructor].
Qed.

Lemma rounds_message (script : list (answers V)) (s : state)
    (x : answers V * state) :
  In x (rounds script s) ->
  message (snd x) = message s \/ In (message (snd x)) (verdicts script).
Proof.
  revert s. induction script as [|a script IH]; intros s; [intros []|].
  cbn [rounds]. intros [<- | Hin]; [now left|].
  destruct (iteration a s) as [[[[|] | e] s1] t1] eqn:Hit; try contradiction.
  unfold verdicts; cbn [flat_map]. fold (verdicts script).
  destruct (IH s1 Hin) as [Hm | Hm]; [|right; apply in_or_app; now right].
  destruct (iteration_continue a s s1 t1 Hit)
    as [r [Hr [[tc [v [Htc ->]]] | [t [Htc [Hg ->]]]]]].
  - left. exact Hm.
  - right. apply in_or_app. left. rewrite Hg, Hm. now left.
Qed.

Lemma user_turn_of_context (q : string) (h : list msg) (m : msg) :
  Forall from_loop h ->
  In m (context q h) -> role m = "user" -> m = user_turn q.
Proof.
  intros Hh [<- | [<- | Hin]] Hrole; [discriminate | reflexivity |].
  rewrite Forall_forall in Hh. destruct (Hh m Hin) as [H | H];
    rewrite H in Hrole; discriminate.
Qed.

(** C10, amended.  The messages of every call of the reasoning model
    are the turn of role [system] with the fixed prompt, then one turn
    of role [user] whose content is the message as it is at that round,
    then the history; the history holds assistant and tool turns only,
    so the message of the user is never appended to it.  After a round
    in which the quality-control model answers a text [t] other than
    [yes], the loop goes on from the message [t] and the history alone,
    and in every later call the only user turn holds [t] or a later
    answer of the quality-control model: the first message is in a later
    call only where such an answer, or a text of the history, repeats
    it. *)
Theorem user_turn_holds_the_latest_query (text : string)
    (script : list (answers V)) :
  reasoning_calls (trace_of (exchange text script))
  = map (fun x =>
           {| role := "system"; content := Some prompt;
              tool_calls := None; tool_call_id := None |}
           :: {| role := "user"; content := Some (message (snd x));
                 tool_calls := None; tool_call_id := None |}
           :: chat_history (snd x))
        (rounds script (fresh text))
  /\ (forall x,
        In x (rounds script (fresh text)) ->
        Forall from_loop (chat_history (snd x))
        /\ (message (snd x) = text \/ In (message (snd x)) (verdicts script)))
  /\ (forall a s r t rest,
        ans_openai a = Ok r ->
        first_tool_call r = None ->
        ans_grok a = Ok (Some t) ->
        t <> "yes" ->
        Forall from_loop (chat_history s) ->
        rounds (a :: rest) s
        = (a, s)
          :: rounds rest
               {| message := t; chat_history := (chat_history s ++ said r)%list |}
        /\ (forall x m,
              In x (rounds rest
                      {| message := t;
                         chat_history := (chat_history s ++ said r)%list |}) ->
              In m (context (message (snd x)) (chat_history (snd x))) ->
              role m = "user" ->
              m = {| role := "user"; content := Some (message (snd x));
                     tool_calls := None; tool_call_id := None |}
              /\ In (message (snd x)) (t :: verdicts rest))).
Proof.
  split; [|split].
  - rewrite exchange_reasoning_calls. apply reasoning_calls_rounds.
  - intros x Hx. split.
    + apply (rounds_invariant (fun s => Forall from_loop (chat_history s)))
        with (script := script) (s := fresh text); try assumption.
      * intros a s s1 t1. apply from_loop_step.
      * constructor.
    + apply (rounds_message script (fresh text) x Hx).
  - intros a s r t rest Hr Htc Hg Ht Hs.
    assert (Hno : (t =? "yes") = false)
      by (destruct (String.eqb_spec t "yes"); [contradiction | reflexivity]).
    assert (Hit : iteration a s
      = (Ok Continue,
         {| message := t; chat_history := (chat_history s ++ said r)%list |},
         ((OpenaiCreate (context (message s) (chat_history s))
             :: map SendJson (spoken r))
          ++ gate_opening (extend s (said r))
          ++ [SendJson (progress_event ("Feedback from Grok: " ++ t))])%list)).
    { rewrite (iteration_gate a s r Hr Htc), (gating_text a _ t Hg), Hno.
      reflexivity. }
    split; [cbn [rounds]; now rewrite Hit|].
    intros x m Hx Hm Hrole.
    assert (Hh : Forall from_loop (chat_history (snd x))).
    { apply (rounds_invariant (fun s => Forall from_loop (chat_history s)))
        with (script := rest)
             (s := {| message := t;
                      chat_history := (chat_history s ++ said r)%list |});
        try assumption.
      - intros a0 s0 s1 t1. apply from_loop_step.
      - cbn [chat_history]. apply Forall_app. split;
          [exact Hs | apply from_loop_said]. }
    split; [now apply (user_turn_of_context _ (chat_history (snd x)))|].
    destruct (rounds_message rest _ x Hx) as [H | H]; [left | right; exact H].
    now rewrite H.
Qed.

End Properties.

(** * The properties on concrete sessions *)

(** Scenario C at work, against C1 as stated: the provider raises, and
    the failure is not appended as a result turn; the inner loop is left
    with the exception, and the message is over after one call of the
    reasoning model although the script has a second round. *)
Lemma tool_raise_is_not_folded_into_history :
  tool_requesting rate_limited_round = true
  /\ ans_aci rate_limited_round = Raise "429 Too Many Requests"
  /\ outcome (demo_conversation scenario_c (fresh dire_wolf))
     = Raise "429 Too Many Requests"
  /\ chat_history (state_of (demo_conversation scenario_c (fresh dire_wolf)))
     = [ {| role := "assistant"; content := Some "Let me search.";
            tool_calls := None; tool_call_id := None |};
         {| role := "assistant"; content := None;
            tool_calls := Some [news_search]; tool_call_id := None |} ]
  /\ tool_results
       (chat_history (state_of (demo_conversation scenario_c (fresh dire_wolf))))
     = 0
  /\ length (reasoning_calls (trace_of (demo_exchange dire_wolf scenario_c)))
     = 1.
Proof. vm_compute. repeat split; reflexivity. Qed.

(** Against C2 as stated: a round with a tool call whose arguments do
    not decode does not go back to the reasoning model; the loop is left
    with the exception of [json.loads] after one call of the reasoning
    model. *)
Lemma tool_round_with_broken_arguments_leaves_loop :
  tool_requesting broken_round = true
  /\ outcome (demo_conversation scenario_broken_arguments (fresh dire_wolf))
     = Raise "Expecting property name enclosed in double quotes: line 1 column 2 (char 1)"
  /\ reasoning_calls
       (trace_of (demo_conversation scenario_broken_arguments (fresh dire_wolf)))
     = [context dire_wolf []]
  /\ gate_calls
       (trace_of (demo_conversation scenario_broken_arguments (fresh dire_wolf)))
     = [].
Proof. vm_compute. repeat split; reflexivity. Qed.

(** Against C4 as stated: a round with a tool call in which the provider
    raises appends one request turn and no result turn. *)
Lemma raising_tool_round_appends_no_result :
  tool_requesting unavailable_round = true
  /\ outcome (demo_iteration unavailable_round (fresh dire_wolf))
     = Raise "503 Service Unavailable"
  /\ chat_history (state_of (demo_iteration unavailable_round (fresh dire_wolf)))
     = [tool_request_turn news_search]
  /\ requests
       (chat_history (state_of (demo_iteration unavailable_round (fresh dire_wolf))))
     = 1
  /\ tool_results
       (chat_history (state_of (demo_iteration unavailable_round (fresh dire_wolf))))
     = 0
  /\ paired
       (chat_history (state_of (demo_iteration unavailable_round (fresh dire_wolf))))
     = false.
Proof. vm_compute. repeat split; reflexivity. Qed.

(** The amended C1 on a failure that the provider returns: the value
    is appended as the result turn of the call, and the loop goes on. *)
Lemma returned_failure_is_folded_into_history :
  ans_aci fruitless_round = Ok nothing_found
  /\ outcome (demo_iteration fruitless_round (fresh dire_wolf)) = Ok Continue
  /\ chat_history (state_of (demo_iteration fruitless_round (fresh dire_wolf)))
     = [ {| role := "assistant"; content := None;
            tool_calls := Some [news_search]; tool_call_id := None |};
         {| role := "tool"; content := Some (demo_dumps nothing_found);
            tool_calls := None; tool_call_id := Some "call_1" |} ].
Proof.
  destruct (tool_value_folded_and_tool_raise_leaves_loop
              demo_loads demo_dumps demo_dumps_indent
              fruitless_round (fresh dire_wolf) _ news_search
              [("query", "dire wolf revival")] eq_refl eq_refl eq_refl)
    as [H _].
  destruct (H nothing_found eq_refl) as [H1 [H2 _]].
  split; [reflexivity|]. split; [exact H1 | exact H2].
Defined.

(** The amended C2 on scenario A: one call of the quality-control
    model, in the round without a tool call. *)
Lemma gate_called_once_in_scenario_a :
  map direct scenario_a = [false; true]
  /\ length (gate_calls (trace_of (demo_conversation scenario_a (fresh dire_wolf))))
     = 1.
Proof.
  split; [reflexivity|].
  exact (proj1 (proj2 (proj2
           (gate_called_exactly_in_direct_rounds
              demo_loads demo_dumps demo_dumps_indent
              scenario_a (fresh dire_wolf))))).
Defined.

(** C3 on an answer that differs from [yes] in case only. *)
Lemma capitalised_yes_is_a_new_query :
  ans_grok capitalised_round = Ok (Some "Yes")
  /\ outcome (demo_iteration capitalised_round (fresh dire_wolf)) = Ok Continue
  /\ message (state_of (demo_iteration capitalised_round (fresh dire_wolf)))
     = "Yes".
Proof.
  destruct (gate_satisfied_iff_exactly_yes
              demo_loads demo_dumps demo_dumps_indent
              capitalised_round [] (fresh dire_wolf) _
              eq_refl eq_refl) as [_ [H _]].
  destruct (H "Yes" eq_refl) as [_ [_ H']].
  destruct H' as [H1 [H2 _]]; [discriminate|].
  split; [reflexivity|]. split; [exact H1 | exact H2].
Defined.

(** The amended C4 on scenario A: the second call of the reasoning
    model sees the request with its result. *)
Lemma requests_answered_in_scenario_a :
  Forall (fun messages =>
            exists q h,
              messages = system_turn :: user_turn q :: h
              /\ paired h = true /\ answered h)
         [context dire_wolf [];
          context dire_wolf
            [tool_request_turn news_search;
             tool_result_turn "call_1" (demo_dumps three_articles)]].
Proof.
  exact (proj1 (requests_answered_at_every_reasoning_call
                  demo_loads demo_dumps demo_dumps_indent dire_wolf scenario_a)).
Defined.

(** C5 on the first round of scenario B. *)
Lemma retry_keeps_history_in_scenario_b :
  ans_grok retry_round = Ok (Some refine)
  /\ state_of (demo_iteration retry_round searched)
     = {| message := refine;
          chat_history :=
            [ tool_request_turn news_search;
              tool_result_turn "call_1" (demo_dumps three_articles);
              assistant_turn "Several outlets covered the story." ] |}.
Proof.
  destruct (retry_replaces_message_only
              demo_loads demo_dumps demo_dumps_indent
              retry_round searched _ refine eq_refl eq_refl eq_refl)
    as [_ [H _]]; [discriminate|].
  split; [reflexivity | exact H].
Defined.

(** C6 on two failures.  An outage of the reasoning model in the first
    round: the history is empty, the error event is sent, and the
    session goes on with the second message.  Scenario C: the provider
    raises after the request turn was appended; the error event cannot
    be encoded, nothing is sent for the failure, and the second message
    is never read. *)
Lemma outage_is_reported_and_tool_failure_ends_the_task :
  (outcome (demo_conversation [outage_round "Connection error."]
              (fresh dire_wolf))
   = Raise "Connection error."
   /\ events (trace_of (demo_exchange dire_wolf
                          [outage_round "Connection error."]))
      = [ {| ev_type := "progress"; ev_content := "Processing your request...";
             ev_chat_history := None |};
          {| ev_type := "error"; ev_content := "Connection error.";
             ev_chat_history := Some [] |} ]
   /\ demo_endpoint [ (Arrives 1 dire_wolf, [outage_round "Connection error."]);
                      (Arrives 2 follow_up, scenario_a) ]
      = resume (trace_of (demo_exchange dire_wolf
                            [outage_round "Connection error."]))
               (demo_endpoint [(Arrives 2 follow_up, scenario_a)]))
  /\ (outcome (demo_conversation scenario_c (fresh dire_wolf))
      = Raise "429 Too Many Requests"
      /\ outcome (demo_exchange dire_wolf scenario_c) = Raise not_serializable
      /\ events (trace_of (demo_exchange dire_wolf scenario_c))
         = [ {| ev_type := "progress";
                ev_content := "Processing your request...";
                ev_chat_history := None |};
             {| ev_type := "message"; ev_content := "Let me search.";
                ev_chat_history := None |};
             {| ev_type := "progress";
                ev_content := "Function Call: BRAVE_SEARCH__NEWS_SEARCH" ++ nl
                              ++ "Arguments: " ++ news_arguments;
                ev_chat_history := None |} ]
      /\ error_events (events (trace_of (demo_exchange dire_wolf scenario_c)))
         = []
      /\ demo_endpoint [ (Arrives 1 dire_wolf, scenario_c);
                         (Arrives 2 follow_up, scenario_a) ]
         = (Crashed not_serializable,
            trace_of (demo_exchange dire_wolf scenario_c))).
Proof.
  destruct (failure_reported_unless_history_holds_a_tool_call
              demo_loads demo_dumps demo_dumps_indent
              dire_wolf [outage_round "Connection error."] "Connection error."
              eq_refl) as [_ [Hsent _]].
  destruct (Hsent eq_refl) as [_ [H1 [_ H2]]].
  destruct (failure_reported_unless_history_holds_a_tool_call
              demo_loads demo_dumps demo_dumps_indent
              dire_wolf scenario_c "429 Too Many Requests"
              eq_refl) as [_ [_ [Hlost _]]].
  destruct (Hlost eq_refl) as [H3 [H4 [H5 H6]]].
  split; [|split; [|split; [|split; [|split]]]].
  - split; [reflexivity|]. split.
    + unfold demo_exchange. rewrite H1. reflexivity.
    + exact (H2 1%Q _ eq_refl).
  - reflexivity.
  - exact H3.
  - unfold demo_exchange. rewrite H4. reflexivity.
  - exact H5.
  - exact (H6 1%Q _ eq_refl).
Defined.

(** C7 on scenario D: the second message comes after 601 seconds. *)
Lemma late_message_closes_silently :
  (600 < 601)%Q
  /\ demo_endpoint scenario_d
     = (TimedOut, trace_of (demo_exchange dire_wolf scenario_a))
  /\ error_events (events (snd (demo_endpoint scenario_d))) = [].
Proof.
  assert (Hlate : forall d,
            completes (Arrives 601 "Anyone there?") = Some d -> (600 < d)%Q).
  { intros d H. injection H as <-. reflexivity. }
  destruct (timeout_closes_silently
              demo_loads demo_dumps demo_dumps_indent
              (Arrives 601 "Anyone there?") scenario_a [] Hlate) as [_ [_ H]].
  destruct (H [(Arrives 1 dire_wolf, scenario_a)]
              (trace_of (demo_exchange dire_wolf scenario_a)) eq_refl)
    as [H1 H2].
  split; [reflexivity|]. split; [exact H1|].
  change (demo_endpoint scenario_d)
    with (websocket_endpoint demo_loads demo_dumps demo_dumps_indent
            ([(Arrives 1 dire_wolf, scenario_a)]
             ++ [(Arrives 601 "Anyone there?", scenario_a)])).
  rewrite H2. reflexivity.
Defined.

(** C8 on the second round of scenario A: the request turn gives no
    line. *)
Lemma transcript_of_scenario_a :
  first_tool_call
    {| rsp_content := Some press_release; rsp_tool_calls := None |} = None
  /\ gate_calls
       (trace_of (demo_iteration satisfied_round
                    searched))
     = [grok_instructions
        ++ "tool: " ++ demo_dumps three_articles ++ nl
        ++ "assistant: " ++ press_release].
Proof.
  split; [reflexivity|].
  exact (proj1 (gate_receives_role_prefixed_transcript
                  demo_loads demo_dumps demo_dumps_indent
                  satisfied_round searched _
                  eq_refl eq_refl)).
Defined.

(** Against C9 as stated: the response has a text and a tool call, and
    the arguments of the call are not JSON.  The message event and the
    notice are sent, and the provider is not called: the round ends with
    the exception of [json.loads]. *)
Lemma text_with_undecodable_call_dispatches_nothing :
  ans_openai chatty_broken_round
  = Ok {| rsp_content := Some "Let me search.";
          rsp_tool_calls := Some [broken_search] |}
  /\ events (trace_of (demo_iteration chatty_broken_round (fresh dire_wolf)))
     = [ {| ev_type := "message"; ev_content := "Let me search.";
            ev_chat_history := None |};
         {| ev_type := "progress";
            ev_content := "Function Call: BRAVE_SEARCH__WEB_SEARCH" ++ nl
                          ++ "Arguments: {";
            ev_chat_history := None |} ]
  /\ tool_calls_made
       (trace_of (demo_iteration chatty_broken_round (fresh dire_wolf)))
     = []
  /\ outcome (demo_iteration chatty_broken_round (fresh dire_wolf))
     = Raise "Expecting property name enclosed in double quotes: line 1 column 2 (char 1)".
Proof. vm_compute. repeat split; reflexivity. Qed.

(** The amended C9 on the first round of scenario C, which has text
    and a tool call with arguments that decode. *)
Lemma text_and_tool_call_in_scenario_c :
  rsp_content
    {| rsp_content := Some "Let me search.";
       rsp_tool_calls := Some [news_search] |} = Some "Let me search."
  /\ events (trace_of (demo_iteration rate_limited_round (fresh dire_wolf)))
     = [ {| ev_type := "message"; ev_content := "Let me search.";
            ev_chat_history := None |};
         {| ev_type := "progress";
            ev_content := "Function Call: BRAVE_SEARCH__NEWS_SEARCH" ++ nl
                          ++ "Arguments: " ++ news_arguments;
            ev_chat_history := None |} ]
  /\ chat_history (state_of (demo_iteration rate_limited_round (fresh dire_wolf)))
     = [ {| role := "assistant"; content := Some "Let me search.";
            tool_calls := None; tool_call_id := None |};
         {| role := "assistant"; content := None;
            tool_calls := Some [news_search]; tool_call_id := None |} ]
  /\ tool_calls_made (trace_of (demo_iteration rate_limited_round (fresh dire_wolf)))
     = [("BRAVE_SEARCH__NEWS_SEARCH", [("query", "dire wolf revival")])]
  /\ gate_calls (trace_of (demo_iteration rate_limited_round (fresh dire_wolf)))
     = [].
Proof.
  assert (Hn : "Let me search." <> "") by discriminate.
  destruct (text_and_tool_call_share_a_round
              demo_loads demo_dumps demo_dumps_indent
              rate_limited_round (fresh dire_wolf) _ "Let me search." news_search
              eq_refl eq_refl Hn eq_refl) as [_ [_ [H1 [_ [H2 _]]]]].
  split; [reflexivity|]. split; [reflexivity|]. split; [reflexivity|].
  split; [exact (H1 _ eq_refl) | exact H2].
Defined.

(** Against C10 as stated: the quality-control model answers with the
    question of the user, which is not [yes]; the loop goes on, and the
    user turn of the second call of the reasoning model holds the first
    message. *)
Lemma echoed_query_is_in_the_next_call :
  ans_grok echo_round = Ok (Some dire_wolf)
  /\ (dire_wolf =? "yes") = false
  /\ outcome (demo_iteration echo_round (fresh dire_wolf)) = Ok Continue
  /\ reasoning_calls (trace_of (demo_exchange dire_wolf scenario_echo))
     = [ [ {| role := "system"; content := Some prompt;
              tool_calls := None; tool_call_id := None |};
           {| role := "user"; content := Some dire_wolf;
              tool_calls := None; tool_call_id := None |} ];
         [ {| role := "system"; content := Some prompt;
              tool_calls := None; tool_call_id := None |};
           {| role := "user"; content := Some dire_wolf;
              tool_calls := None; tool_call_id := None |};
           {| role := "assistant";
              content := Some "Several outlets covered the story.";
              tool_calls := None; tool_call_id := None |} ] ].
Proof. vm_compute. repeat split; reflexivity. Qed.

(** The amended C10 on scenario B: after the retry the user turn holds
    the new query. *)
Lemma user_turn_holds_the_retry_in_scenario_b :
  reasoning_calls (trace_of (demo_exchange dire_wolf scenario_b))
  = [ [ {| role := "system"; content := Some prompt;
           tool_calls := None; tool_call_id := None |};
        {| role := "user"; content := Some dire_wolf;
           tool_calls := None; tool_call_id := None |} ];
      [ {| role := "system"; content := Some prompt;
           tool_calls := None; tool_call_id := None |};
        {| role := "user"; content := Some refine;
           tool_calls := None; tool_call_id := None |};
        {| role := "assistant";
           content := Some "Several outlets covered the story.";
           tool_calls := None; tool_call_id := None |} ];
      [ {| role := "system"; content := Some prompt;
           tool_calls := None; tool_call_id := None |};
        {| role := "user"; content := Some refine;
           tool_calls := None; tool_call_id := None |};
        {| role := "assistant";
           content := Some "Several outlets covered the story.";
           tool_calls := None; tool_call_id := None |};
        {| role := "assistant"; content := None;
           tool_calls := Some [news_search]; tool_call_id := None |};
        {| role := "tool"; content := Some (demo_dumps three_articles);
           tool_calls := None; tool_call_id := Some "call_1" |} ] ].
Proof.
  exact (proj1 (user_turn_holds_the_latest_query
                  demo_loads demo_dumps demo_dumps_indent dire_wolf scenario_b)).
Defined.

(** * More of the program *)

(** ** The tool definitions at start-up *)

(** The names of line 42. *)
Definition function_defintions : list string :=
  [ "BRAVE_SEARCH__NEWS_SEARCH"; "BRAVE_SEARCH__WEB_SEARCH";
    "BRAVE_SEARCH__IMAGE_SEARCH"; "BRAVE_SEARCH__VIDEO_SEARCH";
    "EXA_AI__GET_CONTENTS"; "EXA_AI__FINDSIMILAR"; "EXA_AI__SEARCH" ].

(** Line 48: the list comprehension over the names, with
    [aci.functions.get_definition] as a function that returns a
    definition or raises.  The calls are made in the order of the names,
    and the first one that raises ends the comprehension. *)
Fixpoint get_definitions {D : Type} (get_definition : string -> result D)
    (names : list string) : result (list D) :=
  match names with
  | [] => Ok []
  | name :: names' =>
      match get_definition name with
      | Ok d =>
          match get_definitions get_definition names' with
          | Ok ds => Ok (d :: ds)
          | Raise e => Raise e
          end
      | Raise e => Raise e
      end
  end.

Definition function_definitions_list {D : Type}
    (get_definition : string -> result D) : result (list D) :=
  get_definitions get_definition function_defintions.

(** ** More to read in a trace and in a history *)

Definition is_final (e : event) : bool := ev_type e =? "final".

Definition is_message (e : event) : bool := ev_type e =? "message".

(** The texts of the message events. *)
Definition told (es : list event) : list string :=
  map ev_content (filter is_message es).

(** The texts of the assistant turns that have one. *)
Definition texts (h : list msg) : list string :=
  flat_map (fun m =>
              match content m with
              | Some c => if role m =? "assistant" then [c] else []
              | None => []
              end) h.

(** A line of a transcript that starts with the role of the assistant
    or of a tool. *)
Fixpoint starts_with (p l : string) : bool :=
  match p, l with
  | EmptyString, _ => true
  | String a p', String b l' => Ascii.eqb a b && starts_with p' l'
  | String _ _, EmptyString => false
  end.

Definition agent_line (l : string) : bool :=
  starts_with "assistant: " l || starts_with "tool: " l.

(** The answers of a round with another response of the reasoning
    model. *)
Definition with_response {V} (a : answers V) (r : chat_message) : answers V :=
  {| ans_openai := Ok r; ans_aci := ans_aci a; ans_grok := ans_grok a |}.

(** What a round does to the loop, read off the answers alone: the
    exception it raises, if it raises. *)
Definition failure {J V} (json_loads : string -> result J) (a : answers V)
  : option exn :=
  match ans_openai a with
  | Raise e => Some e
  | Ok r =>
      match first_tool_call r with
      | Some tc =>
          match json_loads (tc_arguments tc) with
          | Raise e => Some e
          | Ok _ =>
              match ans_aci a with
              | Raise e => Some e
              | Ok _ => None
              end
          end
      | None =>
          match ans_grok a with
          | Raise e => Some e
          | Ok None => Some concat_none_error
          | Ok (Some _) => None
          end
      end
  end.

(** The quality-control model is called and answers [yes]. *)
Definition satisfied {V} (a : answers V) : bool :=
  direct a
  && match ans_grok a with
     | Ok (Some t) => t =? "yes"
     | _ => false
     end.

(** The round neither raises nor is satisfied. *)
Definition keeps_going {J V} (json_loads : string -> result J) (a : answers V)
  : bool :=
  match failure json_loads a with
  | Some _ => false
  | None => negb (satisfied a)
  end.

(** How the inner loop ends on a script, read off the answers alone. *)
Fixpoint course {J V} (json_loads : string -> result J)
    (script : list (answers V)) : result status :=
  match script with
  | [] => Ok Reasoning
  | a :: script' =>
      match failure json_loads a with
      | Some e => Raise e
      | None =>
          if satisfied a then Ok Finished else course json_loads script'
      end
  end.

Section Further.

Context {J V : Type}.
Variable json_loads : string -> result J.
Variable json_dumps : V -> string.
Variable json_dumps_indent : V -> string.

Local Abbreviation iteration := (iteration json_loads json_dumps json_dumps_indent).
Local Abbreviation conversation :=
  (conversation json_loads json_dumps json_dumps_indent).
Local Abbreviation exchange := (exchange json_loads json_dumps json_dumps_indent).
Local Abbreviation websocket_endpoint :=
  (websocket_endpoint json_loads json_dumps json_dumps_indent).
Local Abbreviation rounds := (rounds json_loads json_dumps json_dumps_indent).
Local Abbreviation failure := (failure json_loads).
Local Abbreviation keeps_going := (keeps_going json_loads).
Local Abbreviation course := (course json_loads).

(** Every way a round can go, with the run it gives. *)
Inductive round_view (a : answers V) (s : state)
  : result flow * state * list (action J) -> Prop :=
| view_outage e :
    ans_openai a = Raise e ->
    round_view a s
      (Raise e, s, [OpenaiCreate (context (message s) (chat_history s))])
| view_tool r tc arguments v :
    ans_openai a = Ok r -> first_tool_call r = Some tc ->
    json_loads (tc_arguments tc) = Ok arguments -> ans_aci a = Ok v ->
    round_view a s
      (Ok Continue,
       extend s (said r ++ [tool_request_turn tc;
                            tool_result_turn (tc_id tc) (json_dumps v)]),
       (OpenaiCreate (context (message s) (chat_history s))
          :: map SendJson (spoken r)
          ++ [SendJson (progress_event (call_notice tc));
              HandleFunctionCall (tc_name tc) arguments;
              SendJson (progress_event
                          ("Function Result: " ++ json_dumps_indent v))])%list)
| view_tool_raise r tc arguments e :
    ans_openai a = Ok r -> first_tool_call r = Some tc ->
    json_loads (tc_arguments tc) = Ok arguments -> ans_aci a = Raise e ->
    round_view a s
      (Raise e, extend s (said r ++ [tool_request_turn tc]),
       (OpenaiCreate (context (message s) (chat_history s))
          :: map SendJson (spoken r)
          ++ [SendJson (progress_event (call_notice tc));
              HandleFunctionCall (tc_name tc) arguments])%list)
| view_bad_arguments r tc e :
    ans_openai a = Ok r -> first_tool_call r = Some tc ->
    json_loads (tc_arguments tc) = Raise e ->
    round_view a s
      (Raise e, extend s (said r ++ [tool_request_turn tc]),
       (OpenaiCreate (context (message s) (chat_history s))
          :: map SendJson (spoken r)
          ++ [SendJson (progress_event (call_notice tc))])%list)
| view_yes r :
    ans_openai a = Ok r -> first_tool_call r = None ->
    ans_grok a = Ok (Some "yes") ->
    round_view a s
      (Ok Break, extend s (said r),
       (OpenaiCreate (context (message s) (chat_history s))
          :: map SendJson (spoken r)
          ++ gate_opening (extend s (said r))
          ++ [SendJson (progress_event "Feedback from Grok: yes")])%list)
| view_retry r t :
    ans_openai a = Ok r -> first_tool_call r = None ->
    ans_grok a = Ok (Some t) -> t <> "yes" ->
    round_view a s
      (Ok Continue,
       {| message := t; chat_history := chat_history (extend s (said r)) |},
       (OpenaiCreate (context (message s) (chat_history s))
          :: map SendJson (spoken r)
          ++ gate_opening (extend s (said r))
          ++ [SendJson (progress_event ("Feedback from Grok: " ++ t))])%list)
| view_gate_raise r e :
    ans_openai a = Ok r -> first_tool_call r = None ->
    (ans_grok a = Raise e \/ (ans_grok a = Ok None /\ e = concat_none_error)) ->
    round_view a s
      (Raise e, extend s (said r),
       (OpenaiCreate (context (message s) (chat_history s))
          :: map SendJson (spoken r)
          ++ gate_opening (extend s (said r)))%list).

Lemma iteration_view (a : answers V) (s : state) : round_view a s (iteration a s).
Proof.
  destruct (ans_openai a) as [r | e] eqn:Hr.
  - destruct (first_tool_call r) as [tc |] eqn:Htc.
    + rewrite (iteration_tool _ _ _ a s r tc Hr Htc).
      destruct (json_loads (tc_arguments tc)) as [args | e] eqn:Hl.
      * destruct (ans_aci a) as [v | e] eqn:Ha.
        -- rewrite (tool_dispatch_returns _ _ _ a _ tc args v Hl Ha).
           unfold prefix, outcome, state_of, trace_of; cbn [fst snd].
           rewrite extend_extend. now apply (view_tool a s r tc args v).
        -- rewrite (tool_dispatch_raises _ _ _ a _ tc args e Hl Ha).
           unfold prefix, outcome, state_of, trace_of; cbn [fst snd].
           rewrite extend_extend. now apply (view_tool_raise a s r tc args e).
      * rewrite (tool_dispatch_bad_arguments _ _ _ a _ tc e Hl).
        unfold prefix, outcome, state_of, trace_of; cbn [fst snd].
        rewrite extend_extend. now apply (view_bad_arguments a s r tc e).
    + rewrite (iteration_gate _ _ _ a s r Hr Htc).
      destruct (ans_grok a) as [[t |] | e] eqn:Hg.
      * rewrite (gating_text a _ t Hg).
        unfold prefix, outcome, state_of, trace_of; cbn [fst snd].
        destruct (String.eqb_spec t "yes") as [-> | Hn].
        -- now apply (view_yes a s r).
        -- now apply (view_retry a s r t).
      * rewrite (gating_no_text a _ Hg).
        unfold prefix, outcome, state_of, trace_of; cbn [fst snd].
        apply (view_gate_raise a s r); auto.
      * rewrite (gating_raises a _ e Hg).
        unfold prefix, outcome, state_of, trace_of; cbn [fst snd].
        apply (view_gate_raise a s r); auto.
  - rewrite (iteration_reasoning_raises _ _ _ a s e Hr). now constructor.
Qed.

(** ** The history only grows *)

Lemma iteration_extends (a : answers V) (s : state) :
  exists k,
    chat_history (state_of (iteration a s)) = (chat_history s ++ k)%list.
Proof.
  destruct (iteration_view a s); unfold state_of, extend;
    cbn [fst snd chat_history]; eauto.
  exists []. now rewrite app_nil_r.
Qed.

Lemma conversation_extends (script : list (answers V)) (s : state) :
  exists k,
    chat_history (state_of (conversation script s)) = (chat_history s ++ k)%list.
Proof.
  revert s. induction script as [|a script IH]; intros s.
  - exists []. cbn. now rewrite app_nil_r.
  - rewrite (conversation_cons _ _ _ a script s).
    destruct (iteration_extends a s) as [k Hk].
    destruct (iteration a s) as [[[[|] | e] s1] t1];
      change (chat_history s1 = (chat_history s ++ k)%list) in Hk;
      try (exists k; exact Hk).
    destruct (IH s1) as [k' Hk'].
    exists (k ++ k')%list.
    change (chat_history (state_of (conversation script s1))
            = (chat_history s ++ k ++ k')%list).
    now rewrite Hk', Hk, app_assoc.
Qed.

(** X1.  Within the processing of one message the history is only
    appended to: the history at the start of every round that is run,
    and the history the loop ends with (also when it ends by an
    exception), is the history the loop started from with turns added at
    its end. *)
Theorem history_only_grows (script : list (answers V)) (s : state) :
  (forall x,
     In x (rounds script s) ->
     exists k, chat_history (snd x) = (chat_history s ++ k)%list)
  /\ (exists k,
        chat_history (state_of (conversation script s))
        = (chat_history s ++ k)%list).
Proof.
  split.
  - intros x Hx.
    apply (rounds_invariant json_loads json_dumps json_dumps_indent
             (fun s' => exists k, chat_history s' = (chat_history s ++ k)%list))
      with (script := script) (s := s); try assumption.
    + intros a s0 s1 t1 [k Hk] Hit.
      destruct (iteration_extends a s0) as [k' Hk'].
      rewrite Hit in Hk'. unfold state_of in Hk'; cbn [fst snd] in Hk'.
      exists (k ++ k')%list. now rewrite Hk', Hk, app_assoc.
    + exists []. now rewrite app_nil_r.
  - apply conversation_extends.
Qed.

(** ** What holds of every trace of the loop *)

Lemma conversation_fold (P : state -> list (action J) -> Prop) :
  (forall s, P s []) ->
  (forall a s, P s (trace_of (iteration a s))) ->
  (forall a s s1 t1 t2,
     iteration a s = (Ok Continue, s1, t1) ->
     P s t1 -> P s1 t2 -> P s (t1 ++ t2)%list) ->
  forall script s, P s (trace_of (conversation script s)).
Proof.
  intros Hnil Hstep Happ script.
  induction script as [|a script IH]; intros s; [apply Hnil|].
  rewrite (conversation_cons _ _ _ a script s).
  pose proof (Hstep a s) as Ha.
  destruct (iteration a s) as [[[[|] | e] s1] t1] eqn:Hit;
    unfold trace_of, prefix in *; cbn [fst snd] in *; try exact Ha.
  apply (Happ a s s1 t1); [exact Hit | exact Ha | apply IH].
Qed.

Lemma told_app (es fs : list event) : told (es ++ fs) = (told es ++ told fs)%list.
Proof. unfold told. now rewrite filter_app, map_app. Qed.

Lemma texts_app (h k : list msg) : texts (h ++ k) = (texts h ++ texts k)%list.
Proof. apply flat_map_app. Qed.

Lemma texts_said (r : chat_message) : texts (said r) = told (spoken r).
Proof. unfold said, spoken. destruct (truthy (rsp_content r)); reflexivity. Qed.

Ltac read_events :=
  unfold outcome, state_of, trace_of, extend, gate_opening;
  cbn [fst snd chat_history message];
  rewrite ?events_app; cbn [events]; rewrite ?events_app, ?events_sent;
  cbn [events].

Lemma iteration_told (a : answers V) (s : state) :
  texts (chat_history (state_of (iteration a s)))
  = (texts (chat_history s) ++ told (events (trace_of (iteration a s))))%list.
Proof.
  destruct (iteration_view a s); read_events;
    rewrite ?texts_app, ?told_app, ?texts_said; cbn [app];
    rewrite ?app_nil_r; reflexivity.
Qed.

(** X11.  What the client is told in message events is what the history
    records as assistant texts: at the end of the inner loop, however it
    ends, the texts of the assistant turns of the history are those it
    started with followed by the contents of the message events sent, in
    the order they were sent. *)
Theorem message_events_mirror_assistant_turns (script : list (answers V))
    (s : state) :
  texts (chat_history (state_of (conversation script s)))
  = (texts (chat_history s)
     ++ told (events (trace_of (conversation script s))))%list.
Proof.
  revert s. induction script as [|a script IH]; intros s.
  - cbn. now rewrite app_nil_r.
  - rewrite (conversation_cons _ _ _ a script s).
    pose proof (iteration_told a s) as Ha.
    destruct (iteration a s) as [[[[|] | e] s1] t1];
      unfold state_of, trace_of, prefix in Ha |- *; cbn [fst snd] in Ha |- *;
      try exact Ha.
    change (texts (chat_history (state_of (conversation script s1)))
            = (texts (chat_history s)
               ++ told (events (t1 ++ trace_of (conversation script s1))))%list).
    now rewrite IH, Ha, events_app, told_app, app_assoc.
Qed.

(** ** The final event *)

Definition finals (t : list (action J)) : nat :=
  length (filter is_final (events t)).

Lemma finals_app (t u : list (action J)) : finals (t ++ u) = finals t + finals u.
Proof. unfold finals. now rewrite events_app, filter_app, length_app. Qed.

Lemma finals_spoken (r : chat_message) : filter is_final (spoken r) = [].
Proof. unfold spoken. destruct (truthy (rsp_content r)); reflexivity. Qed.

Lemma iteration_finals (a : answers V) (s : state) :
  finals (trace_of (iteration a s))
  = length (gate_calls (trace_of (iteration a s))).
Proof.
  destruct (iteration_view a s); unfold finals; read_events;
    cbn [gate_calls];
    rewrite ?filter_app, ?finals_spoken, ?gate_calls_app, ?gate_calls_sent;
    reflexivity.
Qed.

(** X5.  The event [final] with the content [Task Completed] is sent
    once for every call of the quality-control model and never
    otherwise: a message that takes k calls of the quality-control
    model gets k final events, each sent before the verdict is known. *)
Theorem final_event_for_every_gate_call (text : string)
    (script : list (answers V)) (s : state) :
  finals (trace_of (conversation script s))
  = length (gate_calls (trace_of (conversation script s)))
  /\ finals (trace_of (exchange text script))
     = length (gate_calls (trace_of (exchange text script)))
  /\ (forall a s',
        finals (trace_of (iteration a s')) = if direct a then 1 else 0).
Proof.
  assert (Hc : forall script s,
            finals (trace_of (conversation script s))
            = length (gate_calls (trace_of (conversation script s)))).
  { apply (conversation_fold
             (fun _ t => finals t = length (gate_calls t))).
    - reflexivity.
    - apply iteration_finals.
    - intros a s0 s1 t1 t2 _ H1 H2.
      now rewrite finals_app, gate_calls_app, length_app, H1, H2. }
  split; [apply Hc|]. split.
  - rewrite (exchange_run _ _ _ text script).
    pose proof (Hc script (fresh text)) as H.
    destruct (conversation script (fresh text)) as [[[[|] | e] s1] t1];
      try destruct (forallb serializable (chat_history s1));
      unfold prefix, trace_of in *; cbn [fst snd] in *;
      rewrite ?finals_app, ?gate_calls_app, ?length_app, H; reflexivity.
  - intros a s'. rewrite iteration_finals. apply iteration_gate_count.
Qed.

(** ** What the quality-control model is shown *)

Lemma agent_lines (h : list msg) :
  Forall from_loop h -> forallb agent_line (transcript_lines h) = true.
Proof.
  induction 1 as [|m h Hm _ IH]; [reflexivity|].
  cbn [transcript_lines]. destruct (content m) as [c|]; [|exact IH].
  destruct (c =? ""); [exact IH|]. cbn [forallb]. rewrite IH, andb_true_r.
  unfold agent_line. destruct Hm as [-> | ->]; reflexivity.
Qed.

Lemma exchange_gate_calls (text : string) (script : list (answers V)) :
  gate_calls (trace_of (exchange text script))
  = gate_calls (trace_of (conversation script (fresh text))).
Proof.
  rewrite (exchange_run _ _ _ text script).
  destruct (conversation script (fresh text)) as [[[[|] | e] s1] t1];
    try destruct (forallb serializable (chat_history s1));
    unfold prefix, trace_of; cbn [fst snd gate_calls];
    rewrite ?gate_calls_app; cbn [gate_calls]; rewrite ?app_nil_r; reflexivity.
Qed.

(** X7.  Every prompt given to the quality-control model while a
    message is processed is the fixed instructions followed by the
    lines of a history of assistant and tool turns: each line starts
    with [assistant: ] or [tool: ].  The transcript has no line for the
    message of the user and none for the system prompt. *)
Theorem gate_transcript_has_agent_lines_only (text : string)
    (script : list (answers V)) (p : string) :
  In p (gate_calls (trace_of (exchange text script))) ->
  exists h,
    p = grok_instructions ++ String.concat nl (transcript_lines h)
    /\ Forall from_loop h
    /\ forallb agent_line (transcript_lines h) = true.
Proof.
  rewrite exchange_gate_calls.
  assert (H : forall script s,
            Forall from_loop (chat_history s) ->
            forall p, In p (gate_calls (trace_of (conversation script s))) ->
            exists h,
              p = grok_instructions ++ String.concat nl (transcript_lines h)
              /\ Forall from_loop h
              /\ forallb agent_line (transcript_lines h) = true).
  { clear. apply (conversation_fold
      (fun s t =>
         Forall from_loop (chat_history s) ->
         forall p, In p (gate_calls t) ->
         exists h,
           p = grok_instructions ++ String.concat nl (transcript_lines h)
           /\ Forall from_loop h
           /\ forallb agent_line (transcript_lines h) = true)).
    - intros s _ p [].
    - intros a s Hs p.
      destruct (ans_openai a) as [r | e] eqn:Hr.
      + rewrite (iteration_gate_calls _ _ _ a s r Hr).
        destruct (first_tool_call r); [intros []|].
        intros [<- | []]. exists (chat_history s ++ said r)%list.
        assert (Hh : Forall from_loop (chat_history s ++ said r))
          by (apply Forall_app; split; [exact Hs | apply from_loop_said]).
        split; [now rewrite chat_summary_lines|].
        split; [exact Hh | now apply agent_lines].
      + rewrite (iteration_gate_calls_raise _ _ _ a s e Hr). intros [].
    - intros a s s1 t1 t2 Hit H1 H2 Hs p.
      rewrite gate_calls_app, in_app_iff. intros [Hp | Hp].
      + now apply H1.
      + apply H2; [|exact Hp].
        now apply (from_loop_step json_loads json_dumps json_dumps_indent
                     a s s1 t1). }
  apply H. constructor.
Qed.

(** ** A failure of the quality-control model *)

(** X12.  When the reasoning model asks for no tool and the call of the
    quality-control model raises, or returns no text (then the
    exception is the one of the string concatenation of line 68), the
    round has already sent the final event: the events of the round are
    the message event, if any, and the final event, with no feedback
    event; the history has the assistant turn of the round.  What the
    client receives for the message then ends with the final event,
    directly followed by the error event when the history can be
    encoded, as it can in the first round of a message, and by nothing
    when it cannot. *)
Theorem gate_failure_comes_after_final_event (a : answers V) (s : state)
    (r : chat_message) (e : exn) :
  ans_openai a = Ok r ->
  first_tool_call r = None ->
  ans_grok a = Raise e \/ (ans_grok a = Ok None /\ e = concat_none_error) ->
  outcome (iteration a s) = Raise e
  /\ events (trace_of (iteration a s))
     = (spoken r
        ++ [ {| ev_type := "final"; ev_content := "Task Completed";
                ev_chat_history := None |} ])%list
  /\ chat_history (state_of (iteration a s)) = (chat_history s ++ said r)%list
  /\ (forall text before t script,
        conversation before (fresh text) = (Ok Reasoning, s, t) ->
        events (trace_of (exchange text (before ++ a :: script)))
        = ({| ev_type := "progress"; ev_content := "Processing your request...";
              ev_chat_history := None |}
           :: events t
           ++ spoken r
           ++ {| ev_type := "final"; ev_content := "Task Completed";
                 ev_chat_history := None |}
           :: (if forallb serializable (chat_history s)
               then [ {| ev_type := "error"; ev_content := e;
                         ev_chat_history :=
                           Some (chat_history s ++ said r)%list |} ]
               else []))%list)
  /\ (forall text script,
        events (trace_of (exchange text (a :: script)))
        = ({| ev_type := "progress"; ev_content := "Processing your request...";
              ev_chat_history := None |}
           :: spoken r
           ++ [ {| ev_type := "final"; ev_content := "Task Completed";
                   ev_chat_history := None |};
                {| ev_type := "error"; ev_content := e;
                   ev_chat_history := Some (said r) |} ])%list).
Proof.
  intros Hr Htc Hg.
  assert (Hit : forall s, iteration a s
    = (Raise e, extend s (said r),
       (OpenaiCreate (context (message s) (chat_history s))
          :: map SendJson (spoken r)
          ++ gate_opening (extend s (said r)))%list)).
  { intros s0. rewrite (iteration_gate _ _ _ a s0 r Hr Htc).
    destruct Hg as [Hg | [Hg ->]].
    - now rewrite (gating_raises a _ e Hg).
    - now rewrite (gating_no_text a _ Hg). }
  assert (Hall : forall s0 text before t script,
    conversation before (fresh text) = (Ok Reasoning, s0, t) ->
    events (trace_of (exchange text (before ++ a :: script)))
    = (progress_event "Processing your request..."
       :: events t
       ++ spoken r
       ++ final_event "Task Completed"
       :: (if forallb serializable (chat_history s0)
           then [error_event e (chat_history s0 ++ said r)%list]
           else []))%list).
  { intros s0 text before t script Hb.
    rewrite (exchange_run _ _ _ text (before ++ a :: script)),
      (conversation_app _ _ _ before (a :: script) _ _ _ Hb),
      (conversation_cons _ _ _ a script s0), Hit.
    unfold prefix, outcome, state_of, trace_of, extend;
      cbn [fst snd chat_history].
    rewrite forallb_app, serializable_said, andb_true_r.
    destruct (forallb serializable (chat_history s0)); read_events;
      rewrite <- ?app_assoc; cbn [app]; rewrite ?app_nil_r; reflexivity. }
  split; [now rewrite Hit|]. split; [|split; [|split]].
  - rewrite Hit. read_events. reflexivity.
  - now rewrite Hit.
  - exact (Hall s).
  - intros text script.
    exact (Hall (fresh text) text [] [] script eq_refl).
Qed.

(** ** The history at the end of the loop *)

Lemma paired_snoc_said (h : list msg) (r : chat_message) :
  paired h = true -> paired (h ++ said r) = true.
Proof. intros H. apply paired_extend; [exact H | apply paired_said]. Qed.

(** X6.  Started on a history in which every request has its result,
    the inner loop ends, however it ends, with such a history again or,
    when it ends by an exception, with such a history followed by one
    last request turn that has no result: the history of an error event
    has at most one request without result, and it is its last turn. *)
Theorem at_most_the_last_request_is_unanswered (script : list (answers V))
    (s : state) :
  paired (chat_history s) = true ->
  paired (chat_history (state_of (conversation script s))) = true
  \/ (exists e h tc,
        outcome (conversation script s) = Raise e
        /\ chat_history (state_of (conversation script s))
           = (h ++ [tool_request_turn tc])%list
        /\ paired h = true).
Proof.
  revert s. induction script as [|a script IH]; intros s Hs; [now left|].
  rewrite (conversation_cons _ _ _ a script s).
  destruct (iteration_view a s) as
    [e Hr | r tc args v Hr Htc _ _ | r tc args e Hr Htc _ _
     | r tc e Hr Htc _ | r Hr Htc _ | r t Hr Htc _ _ | r e Hr Htc _];
    unfold prefix, outcome, state_of, trace_of, extend;
    cbn [fst snd chat_history message].
  - now left.
  - apply (IH {| message := message s;
                 chat_history := (chat_history s
                   ++ said r ++ [tool_request_turn tc;
                                 tool_result_turn (tc_id tc) (json_dumps v)])%list |}).
    cbn [chat_history]. apply paired_extend; [exact Hs|].
    apply paired_extend; [apply paired_said | apply paired_request_result].
  - right. exists e, (chat_history s ++ said r)%list, tc.
    split; [reflexivity|]. split; [now rewrite app_assoc|].
    now apply paired_snoc_said.
  - right. exists e, (chat_history s ++ said r)%list, tc.
    split; [reflexivity|]. split; [now rewrite app_assoc|].
    now apply paired_snoc_said.
  - left. now apply paired_snoc_said.
  - apply (IH {| message := t;
                 chat_history := (chat_history s ++ said r)%list |}).
    now apply paired_snoc_said.
  - left. now apply paired_snoc_said.
Qed.

(** ** How the loop ends *)

Lemma iteration_outcome (a : answers V) (s : state) :
  outcome (iteration a s)
  = match failure a with
    | Some e => Raise e
    | None => if satisfied a then Ok Break else Ok Continue
    end.
Proof.
  destruct (iteration_view a s) as
    [e Hr | r tc args v Hr Htc Hl Ha | r tc args e Hr Htc Hl Ha
     | r tc e Hr Htc Hl | r Hr Htc Hg | r t Hr Htc Hg Ht | r e Hr Htc Hg];
    unfold failure, satisfied, direct, outcome; cbn [fst];
    rewrite Hr, ?Htc, ?Hl, ?Ha, ?Hg; try reflexivity.
  - destruct (String.eqb_spec t "yes"); [contradiction | reflexivity].
  - destruct Hg as [Hg | [Hg ->]]; now rewrite Hg.
Qed.

Lemma conversation_outcome (script : list (answers V)) (s : state) :
  outcome (conversation script s) = course script.
Proof.
  revert s. induction script as [|a script IH]; intros s; [reflexivity|].
  rewrite (conversation_cons _ _ _ a script s). cbn [course].
  pose proof (iteration_outcome a s) as Ha.
  destruct (iteration a s) as [[[[|] | e] s1] t1];
    unfold outcome in Ha; cbn [fst] in Ha;
    destruct (failure a) as [e0|]; try discriminate Ha;
    try (injection Ha as ->; reflexivity);
    destruct (satisfied a); try discriminate Ha; try reflexivity.
  unfold prefix, outcome at 1; cbn [fst]. apply IH.
Qed.

Lemma keeps_going_cases (a : answers V) :
  (keeps_going a = true /\ failure a = None /\ satisfied a = false)
  \/ (keeps_going a = false /\ failure a = None /\ satisfied a = true)
  \/ (keeps_going a = false /\ exists e, failure a = Some e).
Proof.
  unfold keeps_going. destruct (failure a) as [e|].
  - right; right. eauto.
  - destruct (satisfied a); [right; left | left]; auto.
Qed.

Lemma rounds_all_run (script : list (answers V)) (s : state) :
  forallb keeps_going script = true ->
  length (rounds script s) = length script.
Proof.
  revert s. induction script as [|a script IH]; intros s; [reflexivity|].
  cbn [forallb rounds length]. intros H.
  apply andb_prop in H as [Ha Hs].
  pose proof (iteration_outcome a s) as Ho.
  destruct (keeps_going_cases a) as [[_ [Hf Hy]] | [[Hk _] | [Hk _]]];
    try congruence.
  rewrite Hf, Hy in Ho.
  destruct (iteration a s) as [[[[|] | e] s1] t1];
    unfold outcome in Ho; cbn [fst] in Ho; try discriminate Ho.
  now rewrite IH.
Qed.

(** X9.  The inner loop has no bound on its rounds: on a script of any
    length, the loop is still running at the end of the script, about
    to call the reasoning model again, if and only if every round of the
    script neither raised nor had the quality-control model answer
    [yes]; all the rounds of the script were then run, with one call of
    the reasoning model each. *)
Theorem loop_runs_while_rounds_keep_going (script : list (answers V))
    (s : state) :
  (outcome (conversation script s) = Ok Reasoning
   <-> forallb keeps_going script = true)
  /\ (forallb keeps_going script = true ->
      length (rounds script s) = length script
      /\ length (reasoning_calls (trace_of (conversation script s)))
         = length script).
Proof.
  split.
  - rewrite conversation_outcome. clear s.
    induction script as [|a script IH]; [now split|].
    cbn [course forallb].
    destruct (keeps_going_cases a) as [[Hk [Hf Hy]] | [[Hk [Hf Hy]] | [Hk [e Hf]]]];
      rewrite Hk, Hf, ?Hy; cbn [andb]; try exact IH; split; discriminate.
  - intros H. pose proof (rounds_all_run script s H) as Hr.
    split; [exact Hr|].
    now rewrite (reasoning_calls_rounds _ _ _ script s), length_map.
Qed.

(** X10.  How the inner loop ends does not depend on the message or on
    the history, only on the answers of the collaborators.  It ends
    satisfied if and only if the first round that does not keep it
    going is a round without a tool call in which the quality-control
    model answers [yes]; it ends with the exception [e] if and only if
    that round raises [e]. *)
Theorem loop_ends_at_first_round_that_stops (script : list (answers V))
    (s : state) :
  (forall s', outcome (conversation script s') = outcome (conversation script s))
  /\ (outcome (conversation script s) = Ok Finished
      <-> exists before a rest,
            script = (before ++ a :: rest)%list
            /\ forallb keeps_going before = true
            /\ satisfied a = true /\ failure a = None)
  /\ (forall e,
        outcome (conversation script s) = Raise e
        <-> exists before a rest,
              script = (before ++ a :: rest)%list
              /\ forallb keeps_going before = true
              /\ failure a = Some e).
Proof.
  split; [intros s'; now rewrite !conversation_outcome|].
  rewrite conversation_outcome. clear s.
  split; [|intros e]; induction script as [|a script IH];
    cbn [course].
  - split; [discriminate|]. intros [[|b before] [a [rest [H _]]]]; discriminate.
  - destruct (keeps_going_cases a) as [[Hk [Hf Hy]] | [[Hk [Hf Hy]] | [Hk [e Hf]]]];
      rewrite Hf, ?Hy.
    + rewrite IH. split.
      * intros [before [b [rest [-> [Hb Hs]]]]].
        exists (a :: before), b, rest. cbn [forallb app]. now rewrite Hk.
      * intros [[|b before] [c [rest [Heq [Hb [Hs Hf']]]]]];
          cbn [app forallb] in *; injection Heq as <- ->.
        -- congruence.
        -- apply andb_prop in Hb as [_ Hb]. eauto 8.
    + split; [|reflexivity]. intros _. exists [], a, script. auto.
    + split; [discriminate|].
      intros [[|b before] [c [rest [Heq [Hb [Hs Hf']]]]]];
        cbn [app forallb] in *; injection Heq as <- ->.
      * congruence.
      * apply andb_prop in Hb as [Hb _]. congruence.
  - split; [discriminate|]. intros [[|b before] [a [rest [H _]]]]; discriminate.
  - destruct (keeps_going_cases a) as [[Hk [Hf Hy]] | [[Hk [Hf Hy]] | [Hk [e' Hf]]]];
      rewrite Hf, ?Hy.
    + rewrite IH. split.
      * intros [before [b [rest [-> [Hb Hs]]]]].
        exists (a :: before), b, rest. cbn [forallb app]. now rewrite Hk.
      * intros [[|b before] [c [rest [Heq [Hb Hf']]]]];
          cbn [app forallb] in *; injection Heq as <- ->.
        -- congruence.
        -- apply andb_prop in Hb as [_ Hb]. eauto 8.
    + split; [discriminate|].
      intros [[|b before] [c [rest [Heq [Hb Hf']]]]];
        cbn [app forallb] in *; injection Heq as <- ->.
      * congruence.
      * apply andb_prop in Hb as [Hb _]. congruence.
    + split.
      * intros H. injection H as ->. exists [], a, script. auto.
      * intros [[|b before] [c [rest [Heq [Hb Hf']]]]];
          cbn [app forallb] in *; injection Heq as <- ->.
        -- congruence.
        -- apply andb_prop in Hb as [Hb _]. congruence.
Qed.

(** ** Several tool calls, empty content *)

(** X3.  Of the tool calls of a response only the first is used: a
    round whose response has further tool calls after the first runs
    exactly as the round whose response has the first one alone, the
    loop after it as well, and the tool provider is called at most once
    in a round. *)
Theorem only_the_first_tool_call_is_used (a : answers V) (s : state)
    (r : chat_message) (tc : tool_call) (others : list tool_call)
    (script : list (answers V)) :
  ans_openai a = Ok r ->
  rsp_tool_calls r = Some (tc :: others) ->
  iteration a s
  = iteration
      (with_response a
         {| rsp_content := rsp_content r; rsp_tool_calls := Some [tc] |}) s
  /\ conversation (a :: script) s
     = conversation
         (with_response a
            {| rsp_content := rsp_content r; rsp_tool_calls := Some [tc] |}
          :: script) s
  /\ length (tool_calls_made (trace_of (iteration a s))) <= 1
  /\ requests (chat_history (state_of (iteration a s)))
     = S (requests (chat_history s)).
Proof.
  intros Hr Hcalls.
  assert (Htc : first_tool_call r = Some tc)
    by (unfold first_tool_call; now rewrite Hcalls).
  assert (Hit : iteration a s
    = iteration
        (with_response a
           {| rsp_content := rsp_content r; rsp_tool_calls := Some [tc] |}) s).
  { rewrite (iteration_tool _ _ _ a s r tc Hr Htc).
    rewrite (iteration_tool _ _ _
               (with_response a
                  {| rsp_content := rsp_content r;
                     rsp_tool_calls := Some [tc] |})
               s _ tc eq_refl eq_refl).
    reflexivity. }
  split; [exact Hit|]. split; [|split].
  - rewrite !conversation_cons. now rewrite <- Hit.
  - destruct (iteration_view a s); unfold trace_of, gate_opening;
      cbn [snd tool_calls_made];
      rewrite ?tool_calls_made_app, ?tool_calls_made_sent;
      cbn [tool_calls_made app length]; lia.
  - unfold requests.
    destruct (iteration_view a s) as
      [e Hr' | r' tc' args v Hr' Htc' _ _ | r' tc' args e Hr' Htc' _ _
       | r' tc' e Hr' Htc' _ | r' Hr' Htc' _ | r' t Hr' Htc' _ _
       | r' e Hr' Htc' _];
      try congruence;
      assert (r' = r) by congruence; subst r'; try congruence;
      unfold state_of, extend; cbn [fst snd chat_history];
      rewrite !filter_app, !length_app;
      replace (length (filter is_request (said r))) with 0
        by (unfold said; destruct (truthy (rsp_content r)); reflexivity);
      cbn; lia.
Qed.

(** X4.  An empty content and an empty list of tool calls count as
    none: a response whose content is the empty string and whose
    tool_calls is the empty list gives the same round as a response
    with neither.  That round sends no message event and appends no
    turn; it sends the final event and asks the quality-control model
    about the history as it was. *)
Theorem empty_content_and_calls_count_as_none (a : answers V) (s : state) :
  ans_openai a = Ok {| rsp_content := Some ""; rsp_tool_calls := Some [] |} ->
  iteration a s
  = iteration
      (with_response a {| rsp_content := None; rsp_tool_calls := None |}) s
  /\ chat_history (state_of (iteration a s)) = chat_history s
  /\ told (events (trace_of (iteration a s))) = []
  /\ gate_calls (trace_of (iteration a s))
     = [grok_instructions ++ chat_summary (chat_history s)]
  /\ tool_calls_made (trace_of (iteration a s)) = [].
Proof.
  intros Hr.
  assert (Hit : iteration a s
    = prefix [OpenaiCreate (context (message s) (chat_history s))]
        (gating a s)).
  { rewrite (iteration_gate _ _ _ a s _ Hr eq_refl).
    unfold said, spoken; cbn [truthy rsp_content String.eqb negb map].
    now rewrite extend_nil. }
  split; [|split; [|split; [|split]]].
  - rewrite Hit.
    rewrite (iteration_gate _ _ _
               (with_response a {| rsp_content := None; rsp_tool_calls := None |})
               s _ eq_refl eq_refl).
    unfold said, spoken; cbn [truthy rsp_content map].
    rewrite extend_nil. reflexivity.
  - rewrite Hit. destruct (ans_grok a) as [[t |] | e] eqn:Hg.
    + rewrite (gating_text a s t Hg). unfold prefix, state_of; cbn [fst snd].
      destruct (t =? "yes"); reflexivity.
    + now rewrite (gating_no_text a s Hg).
    + now rewrite (gating_raises a s e Hg).
  - rewrite Hit. destruct (ans_grok a) as [[t |] | e] eqn:Hg.
    + now rewrite (gating_text a s t Hg).
    + now rewrite (gating_no_text a s Hg).
    + now rewrite (gating_raises a s e Hg).
  - rewrite (iteration_gate_calls _ _ _ a s _ Hr).
    unfold first_tool_call, said; cbn [rsp_tool_calls rsp_content truthy].
    cbn [String.eqb negb]. now rewrite app_nil_r.
  - rewrite Hit. destruct (ans_grok a) as [[t |] | e] eqn:Hg.
    + now rewrite (gating_text a s t Hg).
    + now rewrite (gating_no_text a s Hg).
    + now rewrite (gating_raises a s e Hg).
Qed.

(** ** From one message to the next *)

Lemma endpoint_last (before : list (inbound * list (answers V)))
    (t : list (action J)) (d : Q) (text : string)
    (script : list (answers V)) :
  websocket_endpoint before = (Listening, t) ->
  Qle_bool d timeout = true ->
  snd (websocket_endpoint (before ++ [(Arrives d text, script)]))
  = (t ++ trace_of (exchange text script))%list.
Proof.
  intros Hb Hd.
  rewrite (endpoint_app _ _ _ before _ t Hb),
    (endpoint_text _ _ _ d text script [] Hd).
  destruct (outcome (exchange text script)) as [[| e |] | e];
    unfold resume; cbn [fst snd websocket_endpoint]; rewrite ?app_nil_r;
    reflexivity.
Qed.

(** X2.  Nothing of an earlier message is kept for the next one: after
    any session that is waiting for input, the actions for the next
    message are those of processing this message alone, and the first
    call of the reasoning model for it receives the system turn and the
    user turn with the text of the message, with an empty history. *)
Theorem each_message_starts_with_an_empty_history
    (before : list (inbound * list (answers V))) (t : list (action J))
    (d : Q) (text : string) (a : answers V) (script : list (answers V)) :
  websocket_endpoint before = (Listening, t) ->
  Qle_bool d timeout = true ->
  snd (websocket_endpoint (before ++ [(Arrives d text, a :: script)]))
  = (t ++ trace_of (exchange text (a :: script)))%list
  /\ hd_error (reasoning_calls (trace_of (exchange text (a :: script))))
     = Some [system_turn; user_turn text]
  /\ hd_error (events (trace_of (exchange text (a :: script))))
     = Some (progress_event "Processing your request...").
Proof.
  intros Hb Hd. split; [now apply endpoint_last|]. split.
  - rewrite (exchange_reasoning_calls _ _ _ text (a :: script)),
      (conversation_reasoning_calls _ _ _ a script (fresh text)).
    reflexivity.
  - rewrite (exchange_run _ _ _ text (a :: script)). reflexivity.
Qed.

(** ** Error events and the ways out of the receive loop *)

Lemma exchange_error_count (text : string) (script : list (answers V)) :
  length (error_events (events (trace_of (exchange text script))))
  = match outcome (conversation script (fresh text)) with
    | Raise _ =>
        if forallb serializable
             (chat_history (state_of (conversation script (fresh text))))
        then 1 else 0
    | Ok _ => 0
    end.
Proof.
  rewrite (exchange_run _ _ _ text script).
  pose proof (conversation_no_error_events
                json_loads json_dumps json_dumps_indent script (fresh text))
    as Hn.
  destruct (conversation script (fresh text)) as [[[[|] | e] s1] t1];
    unfold prefix, outcome, state_of, trace_of in *; cbn [fst snd] in *;
    try destruct (forallb serializable (chat_history s1));
    cbn [fst snd app events];
    rewrite error_events_cons, ?events_app, ?error_events_app, Hn;
    reflexivity.
Qed.

(** X8.  A session gets at most one error event for every inbound
    message.  The processing of a message gives exactly one if the inner
    loop raised on a history that can be encoded, and none otherwise:
    none when the loop did not raise, and none when it raised on a
    history that cannot be encoded, which is the case exactly when a
    round that was run for the message asked for a tool. *)
Theorem at_most_one_error_event_per_message
    (session : list (inbound * list (answers V))) :
  length (error_events (events (snd (websocket_endpoint session))))
  <= length session
  /\ (forall text script,
        length (error_events (events (trace_of (exchange text script))))
        = match outcome (conversation script (fresh text)) with
          | Raise _ =>
              if forallb serializable
                   (chat_history (state_of (conversation script (fresh text))))
              then 1 else 0
          | Ok _ => 0
          end)
  /\ (forall text script,
        forallb serializable
          (chat_history (state_of (conversation script (fresh text))))
        = forallb (fun x => negb (tool_requesting (fst x)))
            (rounds script (fresh text))).
Proof.
  split; [|split; [apply exchange_error_count|]].
  - induction session as [|[i script] session IH]; [cbn; lia|].
    cbn [websocket_endpoint length].
    destruct (wait_for i timeout) as [text | | | e]; try (cbn; lia).
    pose proof (exchange_error_count text script) as Hx.
    assert (Hone : length (error_events
                             (events (trace_of (exchange text script)))) <= 1).
    { rewrite Hx.
      destruct (outcome (conversation script (fresh text))); [lia|].
      destruct (forallb serializable
                  (chat_history (state_of (conversation script (fresh text)))));
        lia. }
    clear Hx.
    destruct (exchange text script) as [[[[| e' |] | e'] s1] t1];
      unfold trace_of in Hone; cbn [snd] in Hone;
      try (cbn [snd]; lia);
      destruct (websocket_endpoint session) as [c t'];
      cbn [snd] in *; rewrite events_app, error_events_app, length_app; lia.
  - intros text script.
    pose proof (conversation_serializable
                  json_loads json_dumps json_dumps_indent script (fresh text))
      as H.
    exact H.
Qed.

(** X14.  When the receive gives no text (the wait times out, the
    client disconnects, or the receive raises another exception) the
    connection task ends without any event: whatever the session did
    before, its trace is what it was before the receive, the rest of the
    session is not processed, and the task ends by the disconnect, by
    the exception or by the timeout accordingly. *)
Theorem disconnect_and_receive_failure_close_silently (i : inbound)
    (script : list (answers V)) (session : list (inbound * list (answers V)))
    (before : list (inbound * list (answers V))) (t : list (action J)) :
  (forall text, wait_for i timeout <> Text text) ->
  websocket_endpoint before = (Listening, t) ->
  snd (websocket_endpoint (before ++ (i, script) :: session)) = t
  /\ fst (websocket_endpoint (before ++ (i, script) :: session))
     = match wait_for i timeout with
       | WebSocketDisconnect => ClientGone
       | OtherError e => Crashed e
       | _ => TimedOut
       end.
Proof.
  intros Hi Hb. rewrite (endpoint_app _ _ _ before _ t Hb).
  cbn [websocket_endpoint].
  destruct (wait_for i timeout) as [text | | | e];
    [now elim (Hi text) | | |];
    unfold resume; cbn [fst snd]; rewrite app_nil_r; split; reflexivity.
Qed.

(** ** The empty transcript *)

Lemma append_empty (x y : string) : x ++ y = "" -> x = "" /\ y = "".
Proof. destruct x; [now split | discriminate]. Qed.

Lemma concat_nonempty (x : string) (xs : list string) :
  x <> "" -> String.concat nl (x :: xs) <> "".
Proof.
  intros Hx. cbn [String.concat]. destruct xs as [|y ys]; [exact Hx|].
  intros H. apply append_empty in H as [H _]. contradiction.
Qed.

Lemma transcript_lines_nonempty (h : list msg) :
  Forall (fun l => l <> "") (transcript_lines h).
Proof.
  induction h as [|m h IH]; [constructor|].
  cbn [transcript_lines]. destruct (content m) as [c|]; [|exact IH].
  destruct (c =? ""); [exact IH|].
  constructor; [|exact IH].
  intros H. apply append_empty in H as [_ H]. discriminate.
Qed.

Lemma transcript_lines_none (h : list msg) :
  transcript_lines h = []
  <-> forallb (fun m => negb (truthy (content m))) h = true.
Proof.
  induction h as [|m h IH]; [now split|].
  cbn [transcript_lines forallb]. unfold truthy at 1.
  destruct (content m) as [c|]; [|exact IH].
  destruct (c =? ""); cbn [negb andb]; [exact IH|]. split; discriminate.
Qed.

(** X15.  The transcript is the empty string exactly when no turn of
    the history has a content that is present and not empty.  So when
    the first response to a message has neither text nor tool call, the
    quality-control model is called with the instructions alone. *)
Theorem transcript_empty_iff_no_turn_has_text (h : list msg) :
  (chat_summary h = ""
   <-> forallb (fun m => negb (truthy (content m))) h = true)
  /\ (forall a text r,
        ans_openai a = Ok r ->
        truthy (rsp_content r) = false ->
        first_tool_call r = None ->
        gate_calls (trace_of (iteration a (fresh text)))
        = [grok_instructions ++ ""]).
Proof.
  split.
  - rewrite chat_summary_lines, <- transcript_lines_none.
    pose proof (transcript_lines_nonempty h) as Hall.
    destruct (transcript_lines h) as [|l ls]; [now split|].
    split; [|discriminate]. intros H. exfalso.
    inversion Hall as [|? ? Hl _]; subst.
    now apply (concat_nonempty l ls).
  - intros a text r Hr Hc Htc.
    rewrite (iteration_gate_calls _ _ _ a (fresh text) r Hr), Htc.
    unfold said. now rewrite Hc.
Qed.

(** ** The order of a round with a tool call *)

(** X16.  In a round with a tool call the actions come in the order of
    the program: the call of the reasoning model, the message event if
    the response has text, the notice of the tool call, and then either
    nothing more (the arguments do not decode), or the call of the tool
    provider alone (it raises), or the call of the tool provider
    followed by the notice of its result.  The provider is never called
    before its call is announced, and no result is announced without a
    call. *)
Theorem tool_round_actions_in_program_order (a : answers V) (s : state)
    (r : chat_message) (tc : tool_call) :
  ans_openai a = Ok r ->
  first_tool_call r = Some tc ->
  exists rest,
    trace_of (iteration a s)
    = (OpenaiCreate (context (message s) (chat_history s))
       :: map SendJson (spoken r)
       ++ SendJson (progress_event (call_notice tc)) :: rest)%list
    /\ ((rest = [] /\ exists e, json_loads (tc_arguments tc) = Raise e)
        \/ (exists arguments,
              json_loads (tc_arguments tc) = Ok arguments
              /\ ((rest = [HandleFunctionCall (tc_name tc) arguments]
                   /\ exists e, ans_aci a = Raise e)
                  \/ (exists v,
                        ans_aci a = Ok v
                        /\ rest
                           = [HandleFunctionCall (tc_name tc) arguments;
                              SendJson
                                (progress_event
                                   ("Function Result: "
                                    ++ json_dumps_indent v))])))).
Proof.
  intros Hr Htc. rewrite (iteration_tool _ _ _ a s r tc Hr Htc).
  destruct (json_loads (tc_arguments tc)) as [args | e] eqn:Hl.
  - destruct (ans_aci a) as [v | e] eqn:Ha.
    + rewrite (tool_dispatch_returns _ _ _ a _ tc args v Hl Ha).
      eexists. split; [reflexivity|]. right. exists args.
      split; [reflexivity|]. right. exists v. split; reflexivity.
    + rewrite (tool_dispatch_raises _ _ _ a _ tc args e Hl Ha).
      eexists. split; [reflexivity|]. right. exists args.
      split; [reflexivity|]. left. split; [reflexivity | eauto].
  - rewrite (tool_dispatch_bad_arguments _ _ _ a _ tc e Hl).
    eexists. split; [reflexivity|]. left. split; [reflexivity | eauto].
Qed.

End Further.

(** ** The tool definitions *)

Lemma get_definitions_ok {D : Type} (get_definition : string -> result D)
    (names : list string) (ds : list D) :
  get_definitions get_definition names = Ok ds ->
  Forall2 (fun name d => get_definition name = Ok d) names ds.
Proof.
  revert ds. induction names as [|name names IH]; intros ds; cbn.
  - intros H. injection H as <-. constructor.
  - destruct (get_definition name) as [d | e] eqn:Hd; [|discriminate].
    destruct (get_definitions get_definition names) as [ds' | e];
      [|discriminate].
    intros H. injection H as <-. constructor; [exact Hd | now apply IH].
Qed.

Lemma get_definitions_raise {D : Type} (get_definition : string -> result D)
    (names : list string) (e : exn) :
  get_definitions get_definition names = Raise e ->
  exists before name rest,
    names = (before ++ name :: rest)%list
    /\ get_definition name = Raise e
    /\ Forall (fun n => exists d, get_definition n = Ok d) before.
Proof.
  induction names as [|name names IH]; cbn; [discriminate|].
  destruct (get_definition name) as [d | e'] eqn:Hd.
  - destruct (get_definitions get_definition names) as [ds' | e'];
      [discriminate|].
    intros H. injection H as ->.
    destruct (IH eq_refl) as [before [n [rest [-> [Hn Hb]]]]].
    exists (name :: before), n, rest. repeat split; try assumption.
    constructor; eauto.
  - intros H. injection H as ->. exists [], name, names.
    repeat split; [exact Hd | constructor].
Qed.

(** X13.  The tool definitions of line 48 are fetched in the order of
    the names.  If every fetch returns, the list has one definition for
    each name, in the order of the names (seven for the names of line
    42); otherwise the comprehension raises the exception of the first
    name whose fetch raises, after the names before it were fetched. *)
Theorem definitions_follow_the_names {D : Type}
    (get_definition : string -> result D) (names : list string) :
  (forall ds,
     get_definitions get_definition names = Ok ds ->
     length ds = length names
     /\ Forall2 (fun name d => get_definition name = Ok d) names ds)
  /\ (forall e,
        get_definitions get_definition names = Raise e ->
        exists before name rest,
          names = (before ++ name :: rest)%list
          /\ get_definition name = Raise e
          /\ Forall (fun n => exists d, get_definition n = Ok d) before)
  /\ ((forall name, In name names -> exists d, get_definition name = Ok d) ->
      exists ds, get_definitions get_definition names = Ok ds)
  /\ (forall ds,
        function_definitions_list get_definition = Ok ds -> length ds = 7).
Proof.
  split; [|split; [|split]].
  - intros ds H. apply get_definitions_ok in H.
    split; [symmetry; now apply (Forall2_length H) | exact H].
  - apply get_definitions_raise.
  - intros Hall.
    destruct (get_definitions get_definition names) as [ds | e] eqn:H;
      [eauto|].
    destruct (get_definitions_raise _ _ _ H) as [before [n [rest [-> [Hn _]]]]].
    destruct (Hall n) as [d Hd]; [apply in_or_app; right; now left|].
    congruence.
  - intros ds H. apply get_definitions_ok in H.
    apply Forall2_length in H. now rewrite <- H.
Qed.

(** ** Further sessions *)

(** The reasoning model asks for two tools at once. *)
Definition two_calls_round : answers execution :=
  {| ans_openai :=
       Ok {| rsp_content := None;
             rsp_tool_calls := Some [news_search; broken_search] |};
     ans_aci := Ok three_articles;
     ans_grok := Raise "not called" |}.

(** The reasoning model returns an empty text and an empty list of tool
    calls. *)
Definition empty_round : answers execution :=
  {| ans_openai := Ok {| rsp_content := Some ""; rsp_tool_calls := Some [] |};
     ans_aci := Raise "not called";
     ans_grok := Ok (Some "yes") |}.

(** The quality-control model returns a completion without text. *)
Definition speechless_round : answers execution :=
  answer_round press_release (Ok None).

(** The prompt of the quality-control model in scenario A. *)
Definition scenario_a_prompt : string :=
  grok_instructions
  ++ "tool: " ++ demo_dumps three_articles ++ nl
  ++ "assistant: " ++ press_release.

(** X2 on a second message after scenario A. *)
Lemma second_message_starts_empty :
  Qle_bool 2 timeout = true
  /\ hd_error (reasoning_calls (trace_of (demo_exchange follow_up scenario_b)))
     = Some [system_turn; user_turn follow_up]
  /\ snd (demo_endpoint [(Arrives 1 dire_wolf, scenario_a);
                         (Arrives 2 follow_up, scenario_b)])
     = (trace_of (demo_exchange dire_wolf scenario_a)
        ++ trace_of (demo_exchange follow_up scenario_b))%list.
Proof.
  destruct (each_message_starts_with_an_empty_history
              demo_loads demo_dumps demo_dumps_indent
              [(Arrives 1 dire_wolf, scenario_a)]
              (trace_of (demo_exchange dire_wolf scenario_a))
              2%Q follow_up retry_round [search_round; satisfied_round]
              eq_refl eq_refl) as [H1 [H2 _]].
  split; [reflexivity|]. split; [exact H2 | exact H1].
Defined.

(** X3 on a response with two tool calls. *)
Lemma second_tool_call_is_dropped :
  rsp_tool_calls
    {| rsp_content := None;
       rsp_tool_calls := Some [news_search; broken_search] |}
  = Some [news_search; broken_search]
  /\ demo_iteration two_calls_round (fresh dire_wolf)
     = demo_iteration search_round (fresh dire_wolf).
Proof.
  split; [reflexivity|].
  exact (proj1 (only_the_first_tool_call_is_used
                  demo_loads demo_dumps demo_dumps_indent
                  two_calls_round (fresh dire_wolf) _ news_search
                  [broken_search] [] eq_refl eq_refl)).
Defined.

(** X4 on a response with an empty text and an empty list. *)
Lemma empty_round_goes_to_the_gate :
  chat_history (state_of (demo_iteration empty_round searched))
  = chat_history searched
  /\ events (trace_of (demo_iteration empty_round searched))
     = [final_event "Task Completed";
        progress_event "Feedback from Grok: yes"].
Proof.
  destruct (empty_content_and_calls_count_as_none
              demo_loads demo_dumps demo_dumps_indent
              empty_round searched eq_refl) as [_ [H _]].
  split; [exact H | reflexivity].
Defined.

(** X6 on scenario C: the last turn is the request without result. *)
Lemma scenario_c_ends_with_an_open_request :
  paired (chat_history (fresh dire_wolf)) = true
  /\ (paired (chat_history
                (state_of (demo_conversation scenario_c (fresh dire_wolf))))
      = true
      \/ exists e h tc,
           outcome (demo_conversation scenario_c (fresh dire_wolf)) = Raise e
           /\ chat_history
                (state_of (demo_conversation scenario_c (fresh dire_wolf)))
              = (h ++ [tool_request_turn tc])%list
           /\ paired h = true).
Proof.
  split; [reflexivity|].
  exact (at_most_the_last_request_is_unanswered
           demo_loads demo_dumps demo_dumps_indent
           scenario_c (fresh dire_wolf) eq_refl).
Defined.

(** X7 on scenario A. *)
Lemma scenario_a_prompt_has_agent_lines_only :
  In scenario_a_prompt
     (gate_calls (trace_of (demo_exchange dire_wolf scenario_a)))
  /\ exists h,
       scenario_a_prompt
       = grok_instructions ++ String.concat nl (transcript_lines h)
       /\ Forall from_loop h
       /\ forallb agent_line (transcript_lines h) = true.
Proof.
  assert (Hin : In scenario_a_prompt
                   (gate_calls (trace_of (demo_exchange dire_wolf scenario_a))))
    by (left; reflexivity).
  split; [exact Hin|].
  exact (gate_transcript_has_agent_lines_only
           demo_loads demo_dumps demo_dumps_indent
           dire_wolf scenario_a scenario_a_prompt Hin).
Defined.

(** X12 on a completion without text, in the first round of a message
    and in a round after a tool call. *)
Lemma speechless_gate_ends_after_final_event :
  ans_grok speechless_round = Ok None
  /\ events (trace_of (demo_exchange dire_wolf [speechless_round]))
     = [ {| ev_type := "progress"; ev_content := "Processing your request...";
            ev_chat_history := None |};
         {| ev_type := "message"; ev_content := press_release;
            ev_chat_history := None |};
         {| ev_type := "final"; ev_content := "Task Completed";
            ev_chat_history := None |};
         {| ev_type := "error"; ev_content := concat_none_error;
            ev_chat_history :=
              Some [ {| role := "assistant"; content := Some press_release;
                        tool_calls := None; tool_call_id := None |} ] |} ]
  /\ events (trace_of (demo_exchange dire_wolf [search_round; speechless_round]))
     = [ {| ev_type := "progress"; ev_content := "Processing your request...";
            ev_chat_history := None |};
         {| ev_type := "progress";
            ev_content := "Function Call: BRAVE_SEARCH__NEWS_SEARCH" ++ nl
                          ++ "Arguments: " ++ news_arguments;
            ev_chat_history := None |};
         {| ev_type := "progress";
            ev_content := "Function Result: "
                          ++ demo_dumps_indent three_articles;
            ev_chat_history := None |};
         {| ev_type := "message"; ev_content := press_release;
            ev_chat_history := None |};
         {| ev_type := "final"; ev_content := "Task Completed";
            ev_chat_history := None |} ].
Proof.
  destruct (gate_failure_comes_after_final_event
              demo_loads demo_dumps demo_dumps_indent
              speechless_round searched _ concat_none_error
              eq_refl eq_refl (or_intror (conj eq_refl eq_refl)))
    as [_ [_ [_ [Hlater Hfirst]]]].
  split; [reflexivity|]. split.
  - exact (Hfirst dire_wolf []).
  - refine (eq_trans (Hlater dire_wolf [search_round] _ [] eq_refl) _).
    reflexivity.
Defined.

(** X14 on a client that disconnects after thirty seconds. *)
Lemma disconnect_after_scenario_a :
  wait_for (Disconnects 30) timeout = WebSocketDisconnect
  /\ demo_endpoint [(Arrives 1 dire_wolf, scenario_a);
                    (Disconnects 30, []);
                    (Arrives 1 follow_up, scenario_b)]
     = (ClientGone, trace_of (demo_exchange dire_wolf scenario_a)).
Proof.
  assert (Hi : forall text, wait_for (Disconnects 30) timeout <> Text text)
    by (intros text H; vm_compute in H; discriminate H).
  destruct (disconnect_and_receive_failure_close_silently
              demo_loads demo_dumps demo_dumps_indent
              (Disconnects 30) [] [(Arrives 1 follow_up, scenario_b)]
              [(Arrives 1 dire_wolf, scenario_a)]
              (trace_of (demo_exchange dire_wolf scenario_a)) Hi eq_refl)
    as [H1 H2].
  split; [reflexivity|].
  change (demo_endpoint [(Arrives 1 dire_wolf, scenario_a);
                         (Disconnects 30, []);
                         (Arrives 1 follow_up, scenario_b)])
    with (websocket_endpoint demo_loads demo_dumps demo_dumps_indent
            ([(Arrives 1 dire_wolf, scenario_a)]
             ++ (Disconnects 30, [])
                :: [(Arrives 1 follow_up, scenario_b)])).
  rewrite (surjective_pairing
             (websocket_endpoint demo_loads demo_dumps demo_dumps_indent
                ([(Arrives 1 dire_wolf, scenario_a)]
                 ++ (Disconnects 30, [])
                    :: [(Arrives 1 follow_up, scenario_b)]))).
  rewrite H1, H2. reflexivity.
Defined.

(** X16 on the first round of scenario C. *)
Lemma rate_limited_round_in_program_order :
  ans_aci rate_limited_round = Raise "429 Too Many Requests"
  /\ exists rest,
       trace_of (demo_iteration rate_limited_round (fresh dire_wolf))
       = (OpenaiCreate (context dire_wolf [])
          :: SendJson (message_event "Let me search.")
          :: SendJson (progress_event (call_notice news_search))
          :: rest)%list.
Proof.
  destruct (tool_round_actions_in_program_order
              demo_loads demo_dumps demo_dumps_indent
              rate_limited_round (fresh dire_wolf) _ news_search
              eq_refl eq_refl) as [rest [H _]].
  split; [reflexivity|]. exists rest. exact H.
Defined.
